(** * betterproto "standard" runtime and plugin: a shallow embedding

    The development follows the three source files
      - [betterproto/standard_enum.py]      (module [StandardEnum]),
      - [betterproto/standard_message.py]   (module [StandardMessage]),
      - [betterproto/plugin/standard_plugin.py] (module [StandardPlugin]),
    and takes from the specification the rule of the schema compiler on
    field numbers (module [Compiler]), whose code is not among them.

    Python values are an inductive type, exceptions are an error monad,
    [warnings.warn] is a log that is returned next to the result. *)

From Stdlib Require Import List ZArith Bool Lia.
From Stdlib Require Import Strings.String Strings.Ascii Numbers.DecimalString.
From Equations Require Import Equations.
Import ListNotations.

Set Warnings "-register-all".

Open Scope list_scope.
Open Scope string_scope.

(** ** Exceptions and the error monad *)

(** The exception classes the modelled code can meet, and the
    [DuplicateFieldNumberError] that the specification names; each carries
    the text it was raised with. *)
Inductive exn : Type :=
| ValueError (msg : string)
| KeyError (key : string)
| TypeError (msg : string)
| AttributeError (msg : string)
| StopIteration
| OSError (msg : string)
| UserWarning (msg : string)
| DuplicateFieldNumberError (msg : string)
| OtherError (cls msg : string).

Inductive outcome (A : Type) : Type :=
| Return (a : A)
| Raise (e : exn).
Arguments Return {A} a.
Arguments Raise {A} e.

Definition bind {A B : Type} (c : outcome A) (k : A -> outcome B) : outcome B :=
  match c with
  | Return a => k a
  | Raise e => Raise e
  end.

Notation "x <- c ;; k" := (bind c (fun x => k))
  (at level 61, c at next level, right associativity).

(** ** Strings *)

(** [str(n)] for a Python int. *)
Definition str_of_int (n : Z) : string :=
  NilZero.string_of_int (Z.to_int n).

(** Converting an int to text is limited by the interpreter
    ([sys.get_int_max_str_digits()], 4300 unless changed; 0 lifts the
    limit): beyond the limit, [str(n)], [repr(n)] and an f-string raise
    [ValueError].  As in CPython the test is on the number of digits
    without the sign, for texts of more than 640 characters. *)
Definition decimal_digits (n : Z) : nat := String.length (str_of_int (Z.abs n)).

Definition exceeds_max_str_digits (limit : nat) (n : Z) : bool :=
  Nat.ltb 640 (decimal_digits n + (if Z.ltb n 0 then 1 else 0))
  && Nat.ltb 0 limit
  && Nat.ltb limit (decimal_digits n).

Definition format_int (limit : nat) (n : Z) : outcome string :=
  if exceeds_max_str_digits limit n
  then Raise (ValueError ("Exceeds the limit (" ++ str_of_int (Z.of_nat limit)
                ++ " digits) for integer string conversion; "
                ++ "use sys.set_int_max_str_digits() to increase the limit"))
  else Return (str_of_int n).

(** What the warning filters make of one call of [warnings.warn]: the
    warning is shown (the action [always], or [default], [module] and
    [once] for a warning not shown before), dropped (the action [ignore],
    or a repetition under [default], [module] and [once]), or raised as
    an exception (the action [error]). *)
Inductive warning_action : Type :=
| action_show
| action_ignore
| action_error.

(** The state of the interpreter that the modelled code depends on: the
    limit on the digits of an int that is converted to text, what the
    warning filters do with the next warning, and whether calling an enum
    class that has no members is refused (CPython 3.12 on takes such a
    call for the functional API and raises [TypeError]). *)
Record interpreter : Type := {
  int_max_str_digits : nat;
  warnings_filter : warning_action;
  enum_call_needs_members : bool
}.

(** A freshly started CPython 3.12. *)
Definition default_interpreter : interpreter :=
  {| int_max_str_digits := 4300;
     warnings_filter := action_show;
     enum_call_needs_members := true |}.

(** [warnings.warn(message)] (category [UserWarning]): the warnings shown
    and how the call ends. *)
Definition warnings_warn (env : interpreter) (message : string)
  : list string * outcome unit :=
  match warnings_filter env with
  | action_show => ([message], Return tt)
  | action_ignore => ([], Return tt)
  | action_error => ([], Raise (UserWarning message))
  end.

(** Python dictionaries keep insertion order and have unique keys; they are
    association lists here.  [dict_get] is [d.get(k)] / [k in d],
    [dict_set] is [d[k] = v]. *)
Fixpoint dict_get {A : Type} (k : string) (d : list (string * A)) : option A :=
  match d with
  | [] => None
  | (k', v) :: rest => if String.eqb k k' then Some v else dict_get k rest
  end.

Fixpoint dict_set {A : Type} (d : list (string * A)) (k : string) (v : A)
  : list (string * A) :=
  match d with
  | [] => [(k, v)]
  | (k', v') :: rest =>
      if String.eqb k k' then (k', v) :: rest else (k', v') :: dict_set rest k v
  end.

Definition keys {A : Type} (d : list (string * A)) : list string := map fst d.
Definition values {A : Type} (d : list (string * A)) : list A := map snd d.

(** [next(iter(xs))]. *)
Definition next_iter {A : Type} (xs : list A) : outcome A :=
  match xs with
  | [] => Raise StopIteration
  | x :: _ => Return x
  end.

(** * standard_enum.py *)

Module StandardEnum.

(** An enum member: [m.name] and [m.value]. *)
Record member : Type := Member { name : string; value : Z }.

(** An enum class: [cls.__name__] and the ordered mapping
    [cls.__members__] (names, aliases included, to members). *)
Record EnumClass : Type := {
  __name__ : string;
  __members__ : list (string * member)
}.

(** *** Class creation: [class E(StandardEnum): A = 0; B = 1; ...]

    A class body is the list of its member declarations [NAME = value].
    A member name does not begin with an underscore ([enum] treats
    [_x_], [__x__] and [_E__x] in ways of their own), is not the empty
    name or [mro], which [enum] refuses, and is not [try_value] or
    [from_string], which would take the place of the classmethod. *)
Definition is_member_name (n : string) : bool :=
  match n with
  | EmptyString => false
  | String c _ =>
      negb (Ascii.eqb c "_")
      && negb (existsb (String.eqb n) ["mro"; "try_value"; "from_string"])
  end.

Record declaration : Type := Declare_member {
  decl_name : string;
  decl_value : Z;
  decl_ok : is_member_name decl_name = true
}.

(** The lines of a body as pairs. *)
Definition lines (body : list declaration) : list (string * Z) :=
  map (fun d => (decl_name d, decl_value d)) body.

(** [enum.EnumType] walks the class body in declaration order.  A name
    used twice is a [TypeError]; a value already taken makes the new name
    an alias of the member declared first with that value. *)
Definition member_of_value (mm : list (string * member)) (v : Z) : option member :=
  find (fun m => Z.eqb (value m) v) (values mm).

Definition add_member (mm : list (string * member)) (decl : string * Z)
  : outcome (list (string * member)) :=
  let '(n, v) := decl in
  match dict_get n mm with
  | Some _ => Raise (TypeError ("Attempted to reuse key: " ++ n))
  | None =>
      match member_of_value mm v with
      | Some m => Return (mm ++ [(n, m)])%list
      | None => Return (mm ++ [(n, Member n v)])%list
      end
  end.

Fixpoint add_members (body : list (string * Z)) (mm : list (string * member))
  : outcome (list (string * member)) :=
  match body with
  | [] => Return mm
  | decl :: rest => mm' <- add_member mm decl ;; add_members rest mm'
  end.

Definition define_enum (cname : string) (body : list declaration)
  : outcome EnumClass :=
  mm <- add_members (lines body) [] ;;
  Return {| __name__ := cname; __members__ := mm |}.

(** *** [cls(value)] and [cls[name]] *)

(** [cls(value)]: the member with that value, else [ValueError]; the
    text of the error formats the value.  Where the interpreter asks for
    members, the call of a class without members is a [TypeError]. *)
Definition call (env : interpreter) (cls : EnumClass) (v : Z) : outcome member :=
  match __members__ cls with
  | [] =>
      if enum_call_needs_members env
      then Raise (TypeError (__name__ cls ++ " has no members"))
      else
        text <- format_int (int_max_str_digits env) v ;;
        Raise (ValueError (text ++ " is not a valid " ++ __name__ cls))
  | members =>
      match member_of_value members v with
      | Some m => Return m
      | None =>
          text <- format_int (int_max_str_digits env) v ;;
          Raise (ValueError (text ++ " is not a valid " ++ __name__ cls))
      end
  end.

(** [cls[name]]: lookup in the member map, else [KeyError]. *)
Definition getitem (cls : EnumClass) (n : string) : outcome member :=
  match dict_get n (__members__ cls) with
  | Some m => Return m
  | None => Raise (KeyError n)
  end.

(** *** [StandardEnum.try_value]

    The result comes with the warnings that were shown.  [except
    ValueError] lets every other exception of [cls(value)] pass.  In the
    handler
    the f-string formats [value] first, then [warnings.warn] is called,
    then the first member is fetched; each of the three can raise. *)
Definition try_value (env : interpreter) (cls : EnumClass) (v : Z)
  : list string * outcome member :=
  match call env cls v with
  | Return m => ([], Return m)
  | Raise (ValueError _) =>
      match format_int (int_max_str_digits env) v with
      | Raise e => ([], Raise e)
      | Return text =>
          match warnings_warn env
                  ("Unknown value " ++ text ++ " for enum " ++ __name__ cls
                     ++ ", using first value as fallback") with
          | (shown, Raise e) => (shown, Raise e)
          | (shown, Return _) => (shown, next_iter (values (__members__ cls)))
          end
      end
  | Raise e => ([], Raise e)
  end.

(** [try_value()] with the default argument [value = 0]. *)
Definition try_value_default (env : interpreter) (cls : EnumClass)
  : list string * outcome member :=
  try_value env cls 0%Z.

(** *** [StandardEnum.from_string] *)
Definition from_string (cls : EnumClass) (n : string) : outcome member :=
  match getitem cls n with
  | Return m => Return m
  | Raise (KeyError _) =>
      Raise (ValueError ("Unknown value " ++ n ++ " for enum " ++ __name__ cls))
  | Raise e => Raise e
  end.

(** The member map of an enum class is canonical: names are unique, every
    member is stored under its own name, and no two members share a
    value. *)
Record canonical (mm : list (string * member)) : Prop := {
  canonical_keys : NoDup (keys mm);
  canonical_own_name : forall m, In m (values mm) -> In (name m, m) mm;
  canonical_values :
    forall m1 m2, In m1 (values mm) -> In m2 (values mm) ->
                  value m1 = value m2 -> m1 = m2
}.

(** Class bodies to run the examples on. *)
Module Demo.
Definition color : list declaration :=
  [ Declare_member "RED" 0 eq_refl;
    Declare_member "GREEN" 1 eq_refl;
    Declare_member "BLUE" 2 eq_refl ].
Definition color_with_alias : list declaration :=
  [ Declare_member "RED" 0 eq_refl;
    Declare_member "GREEN" 1 eq_refl;
    Declare_member "CRIMSON" 0 eq_refl ].
End Demo.

End StandardEnum.

(** * Python values

    The values that [json.loads] produces and that message fields hold;
    dictionary keys are strings, as in JSON objects and keyword
    arguments. *)

(** A [float], an IEEE 754 double: not a number, an infinity, or the
    finite number [mantissa * 2 ^ exponent] with its sign (zero has a
    sign too). *)
Inductive pyfloat : Type :=
| FNaN
| FInfinity (negative : bool)
| FFinite (negative : bool) (mantissa : N) (exponent : Z).

Definition signed (negative : bool) (mantissa : N) : Z :=
  if negative then (- Z.of_N mantissa)%Z else Z.of_N mantissa.

(** [m1 * 2 ^ e1 = m2 * 2 ^ e2], compared at the smaller exponent. *)
Definition dyadic_eqb (m1 e1 m2 e2 : Z) : bool :=
  let low := Z.min e1 e2 in
  Z.eqb (m1 * 2 ^ (e1 - low)) (m2 * 2 ^ (e2 - low)).

(** [x == y] on floats: a NaN equals nothing, itself included; the two
    zeros are equal. *)
Definition float_eqb (x y : pyfloat) : bool :=
  match x, y with
  | FInfinity s, FInfinity t => Bool.eqb s t
  | FFinite s m e, FFinite t n f => dyadic_eqb (signed s m) e (signed t n) f
  | _, _ => false
  end.

(** [datetime.datetime] (naive) and [datetime.timedelta], as Python
    stores them. *)
Record datetime : Type := {
  year : Z; month : Z; day : Z;
  hour : Z; minute : Z; second : Z; microsecond : Z
}.

Record timedelta : Type := { days : Z; seconds : Z; microseconds : Z }.

Inductive value : Type :=
| VNone
| VBool (b : bool)
| VInt (n : Z)
| VFloat (x : pyfloat)
| VStr (s : string)
| VList (items : list value)
| VDict (entries : list (string * value))
| VDatetime (d : datetime)
| VTimedelta (t : timedelta)
| VMessage (cls : string) (fields : list (string * value)).

(** [isinstance(v, dict)]. *)
Definition isinstance_dict (v : value) : bool :=
  match v with VDict _ => true | _ => false end.

(** Truth value of an object, as [not x] tests it. *)
Definition truthy (v : value) : bool :=
  match v with
  | VNone => false
  | VBool b => b
  | VInt n => negb (Z.eqb n 0)
  | VFloat x => negb (float_eqb x (FFinite false 0 0))
  | VStr s => negb (String.eqb s "")
  | VList items => match items with [] => false | _ => true end
  | VDict entries => match entries with [] => false | _ => true end
  | VDatetime _ => true
  | VTimedelta t =>
      negb (Z.eqb (days t) 0 && Z.eqb (seconds t) 0 && Z.eqb (microseconds t) 0)
  | VMessage _ _ => true
  end.

(** The values the claim on round trips calls JSON-primitive. *)
Definition json_primitive (v : value) : bool :=
  match v with
  | VNone | VBool _ | VInt _ | VFloat _ | VStr _ => true
  | _ => false
  end.

Definition is_nan (v : value) : bool :=
  match v with VFloat FNaN => true | _ => false end.

(** The number that a boolean, an integer or a float is in a comparison. *)
Definition number_of (v : value) : option pyfloat :=
  match v with
  | VBool b => Some (FFinite false (if b then 1 else 0) 0)
  | VInt n => Some (FFinite (Z.ltb n 0) (Z.abs_N n) 0)
  | VFloat x => Some x
  | _ => None
  end.

(** [a == b] on JSON-primitive values: [None] equals [None], strings
    are compared as strings, booleans, integers and floats as numbers,
    and values of different kinds differ.  Nothing is said of other
    values. *)
Definition primitive_eq (a b : value) : option bool :=
  match a, b with
  | VNone, VNone => Some true
  | VStr s, VStr t => Some (String.eqb s t)
  | _, _ =>
      match number_of a, number_of b with
      | Some x, Some y => Some (float_eqb x y)
      | _, _ => if json_primitive a && json_primitive b then Some false else None
      end
  end.

(** [==] on the tuples of the field values of two instances, item by
    item, for two tuples that hold no float object in common (between
    objects that are one and the same, [==] is not asked). *)
Fixpoint fields_eq (xs ys : list value) : option bool :=
  match xs, ys with
  | [], [] => Some true
  | x :: xs', y :: ys' =>
      match primitive_eq x y with
      | Some true => fields_eq xs' ys'
      | other => other
      end
  | _, _ => Some false
  end.

(** The values built from [None], booleans, integers, floats, strings,
    lists and dictionaries only: no message instance, [datetime] or
    [timedelta] anywhere inside. *)
Fixpoint json_shaped (v : value) : bool :=
  match v with
  | VNone | VBool _ | VInt _ | VFloat _ | VStr _ => true
  | VList items => forallb json_shaped items
  | VDict entries => forallb (fun '(_, x) => json_shaped x) entries
  | VDatetime _ | VTimedelta _ | VMessage _ _ => false
  end.

(** Number of constructors of a value; the measure of [_convert]. *)
Fixpoint vsize (v : value) : nat :=
  match v with
  | VList items => S (list_sum (map vsize items))
  | VDict entries => S (list_sum (map (fun '(_, x) => vsize x) entries))
  | VMessage _ fields => S (list_sum (map (fun '(_, x) => vsize x) fields))
  | _ => 1
  end.

(** [map] that hands the function a proof of membership, for recursion
    through a list by a measure. *)
Fixpoint map_In {A B : Type} (l : list A) : (forall x, In x l -> B) -> list B :=
  match l with
  | [] => fun _ => []
  | x :: rest => fun f =>
      f x (or_introl eq_refl) :: map_In rest (fun y H => f y (or_intror H))
  end.

(** * standard_message.py *)

Module StandardMessage.

(** ** Field records: [dataclass_field] and the helpers around it *)

(** [dataclasses.MISSING] or a default value. *)
Inductive default_value : Type :=
| MISSING
| Default (v : value).

(** What [dataclasses.field(default=..., metadata=...)] returns: the
    default and the metadata mapping. *)
Record Field : Type := {
  default : default_value;
  metadata : list (string * value)
}.

Definition dataclass_field (number : Z) (proto_type : string)
    (map_types : option (string * string)) (group : option string)
    (wraps : option string) (optional : bool) : Field :=
  {| default := if optional then Default VNone else MISSING;
     metadata := [ ("betterproto_field_number", VInt number);
                   ("betterproto_proto_type", VStr proto_type) ] |}.

Definition enum_field (number : Z) (group : option string) (optional : bool) : Field :=
  dataclass_field number "enum" None group None optional.

Definition bool_field (number : Z) (group : option string) (optional : bool) : Field :=
  dataclass_field number "bool" None group None optional.

Definition int32_field (number : Z) (group : option string) (optional : bool) : Field :=
  dataclass_field number "int32" None group None optional.

Definition int64_field (number : Z) (group : option string) (optional : bool) : Field :=
  dataclass_field number "int64" None group None optional.

Definition uint32_field (number : Z) (group : option string) (optional : bool) : Field :=
  dataclass_field number "uint32" None group None optional.

Definition uint64_field (number : Z) (group : option string) (optional : bool) : Field :=
  dataclass_field number "uint64" None group None optional.

Definition string_field (number : Z) (group : option string) (optional : bool) : Field :=
  dataclass_field number "string" None group None optional.

Definition bytes_field (number : Z) (group : option string) (optional : bool) : Field :=
  dataclass_field number "bytes" None group None optional.

Definition message_field (number : Z) (group : option string)
    (wraps : option string) (optional : bool) : Field :=
  dataclass_field number "message" None group wraps optional.

Definition map_field (number : Z) (key_type value_type : string)
    (group : option string) : Field :=
  dataclass_field number "map" (Some (key_type, value_type)) group None false.

(** The field number and the type category that a record carries. *)
Definition field_number (f : Field) : option value :=
  dict_get "betterproto_field_number" (metadata f).

Definition field_proto_type (f : Field) : option value :=
  dict_get "betterproto_proto_type" (metadata f).

(** ** Message classes *)

(** A type annotation as [get_type_hints] returns it: a plain class
    ([int], [str], [dict], a message class), which has no [__origin__],
    or a subscripted generic ([List[T]], [Dict[K, V]], [Optional[T]],
    [Foo[T]]), whose [__origin__] is the class named [origin]. *)
Inductive hint : Type :=
| HClass (cname : string)
| HAlias (origin : string) (args : list hint).

(** [getattr(t, "__origin__")] when [hasattr(t, "__origin__")]. *)
Definition __origin__ (t : hint) : option string :=
  match t with
  | HClass _ => None
  | HAlias origin _ => Some origin
  end.

(** The annotations that are a plain mapping type: the class [dict]
    itself, or [Dict[K, V]] / [dict[K, V]], whose origin is [dict]. *)
Definition plain_mapping (t : hint) : bool :=
  match t with
  | HClass cname => String.eqb cname "dict"
  | HAlias origin _ => String.eqb origin "dict"
  end.

(** One annotated attribute of a message class body:
    [fname: ftype = fspec]. *)
Record field_decl : Type := {
  fname : string;
  ftype : hint;
  fspec : Field
}.

(** A dataclass deriving from [StandardMessage]. *)
Record MessageClass : Type := {
  __name__ : string;
  __dataclass_fields__ : list field_decl
}.

Definition get_type_hints (cls : MessageClass) : list (string * hint) :=
  map (fun fd => (fname fd, ftype fd)) (__dataclass_fields__ cls).

(** The calls of the field helpers that a message class body makes. *)
Inductive field_call : Type :=
| call_enum_field (number : Z) (group : option string) (optional : bool)
| call_bool_field (number : Z) (group : option string) (optional : bool)
| call_int32_field (number : Z) (group : option string) (optional : bool)
| call_int64_field (number : Z) (group : option string) (optional : bool)
| call_uint32_field (number : Z) (group : option string) (optional : bool)
| call_uint64_field (number : Z) (group : option string) (optional : bool)
| call_string_field (number : Z) (group : option string) (optional : bool)
| call_bytes_field (number : Z) (group : option string) (optional : bool)
| call_message_field (number : Z) (group wraps : option string) (optional : bool)
| call_map_field (number : Z) (key_type value_type : string) (group : option string).

Definition call_number (c : field_call) : Z :=
  match c with
  | call_enum_field n _ _ | call_bool_field n _ _ | call_int32_field n _ _
  | call_int64_field n _ _ | call_uint32_field n _ _ | call_uint64_field n _ _
  | call_string_field n _ _ | call_bytes_field n _ _
  | call_message_field n _ _ _ | call_map_field n _ _ _ => n
  end.

(** The [proto_type] that each helper hands to [dataclass_field]. *)
Definition call_proto_type (c : field_call) : string :=
  match c with
  | call_enum_field _ _ _ => "enum"
  | call_bool_field _ _ _ => "bool"
  | call_int32_field _ _ _ => "int32"
  | call_int64_field _ _ _ => "int64"
  | call_uint32_field _ _ _ => "uint32"
  | call_uint64_field _ _ _ => "uint64"
  | call_string_field _ _ _ => "string"
  | call_bytes_field _ _ _ => "bytes"
  | call_message_field _ _ _ _ => "message"
  | call_map_field _ _ _ _ => "map"
  end.

(** The [optional] flag of a call; [map_field] has none and leaves the
    default of [dataclass_field], [False]. *)
Definition call_optional (c : field_call) : bool :=
  match c with
  | call_enum_field _ _ o | call_bool_field _ _ o | call_int32_field _ _ o
  | call_int64_field _ _ o | call_uint32_field _ _ o | call_uint64_field _ _ o
  | call_string_field _ _ o | call_bytes_field _ _ o
  | call_message_field _ _ _ o => o
  | call_map_field _ _ _ _ => false
  end.

(** The same call with [group] as its oneof group. *)
Definition call_with_group (group : option string) (c : field_call) : field_call :=
  match c with
  | call_enum_field n _ o => call_enum_field n group o
  | call_bool_field n _ o => call_bool_field n group o
  | call_int32_field n _ o => call_int32_field n group o
  | call_int64_field n _ o => call_int64_field n group o
  | call_uint32_field n _ o => call_uint32_field n group o
  | call_uint64_field n _ o => call_uint64_field n group o
  | call_string_field n _ o => call_string_field n group o
  | call_bytes_field n _ o => call_bytes_field n group o
  | call_message_field n _ w o => call_message_field n group w o
  | call_map_field n k v _ => call_map_field n k v group
  end.

Definition eval_field_call (c : field_call) : outcome Field :=
  match c with
  | call_enum_field n g o => Return (enum_field n g o)
  | call_bool_field n g o => Return (bool_field n g o)
  | call_int32_field n g o => Return (int32_field n g o)
  | call_int64_field n g o => Return (int64_field n g o)
  | call_uint32_field n g o => Return (uint32_field n g o)
  | call_uint64_field n g o => Return (uint64_field n g o)
  | call_string_field n g o => Return (string_field n g o)
  | call_bytes_field n g o => Return (bytes_field n g o)
  | call_message_field n g w o => Return (message_field n g w o)
  | call_map_field n k v g => Return (map_field n k v g)
  end.

(** ** Instances *)

(** The generated [__init__] of a dataclass, called with keyword
    arguments only: every field, in
    order, takes its keyword argument, else its default, else the call is
    a [TypeError]; a keyword that names no field is a [TypeError] too.
    [__post_init__] does nothing. *)
Fixpoint init_fields (fds : list field_decl) (kwargs : list (string * value))
  : outcome (list (string * value)) :=
  match fds with
  | [] => Return []
  | fd :: rest =>
      v <- match dict_get (fname fd) kwargs with
           | Some v => Return v
           | None =>
               match default (fspec fd) with
               | Default v => Return v
               | MISSING =>
                   Raise (TypeError ("missing required argument: " ++ fname fd))
               end
           end ;;
      vs <- init_fields rest kwargs ;;
      Return ((fname fd, v) :: vs)
  end.

Definition construct (cls : MessageClass) (kwargs : list (string * value))
  : outcome value :=
  match find (fun k => negb (existsb (String.eqb k)
                               (map fname (__dataclass_fields__ cls))))
             (keys kwargs) with
  | Some k => Raise (TypeError ("unexpected keyword argument: " ++ k))
  | None =>
      fs <- init_fields (__dataclass_fields__ cls) kwargs ;;
      Return (VMessage (__name__ cls) fs)
  end.

(** The names a message class can give a field and keep the methods of
    [StandardMessage] callable on its instances: a field named as one of
    the four methods takes the method's place (calling it is then a
    [TypeError]), and the names with two leading underscores belong to
    the object protocol and to [dataclass]. *)
Definition is_field_name (n : string) : bool :=
  negb (existsb (String.eqb n) ["to_dict"; "to_json"; "from_dict"; "from_json"])
  && negb (String.prefix "__" n).

(** The [__eq__] that [dataclass] generates, for instances whose fields
    hold JSON-primitive values: instances of different classes differ,
    instances of one class are compared by their field values, in the
    order of the fields. *)
Definition message_eq (a b : value) : option bool :=
  match a, b with
  | VMessage c1 fields1, VMessage c2 fields2 =>
      if String.eqb c1 c2 then fields_eq (values fields1) (values fields2)
      else Some false
  | _, _ => None
  end.

(** ** [dataclasses.asdict] *)

(** [dataclasses._asdict_inner]: dataclass instances become dictionaries,
    lists and dictionaries are rebuilt, anything else is copied. *)
Fixpoint asdict_inner (obj : value) : value :=
  match obj with
  | VMessage _ fields => VDict (map (fun '(k, v) => (k, asdict_inner v)) fields)
  | VList items => VList (map asdict_inner items)
  | VDict entries => VDict (map (fun '(k, v) => (k, asdict_inner v)) entries)
  | other => other
  end.

(** [dataclasses.asdict(obj).items()] for an instance with these fields. *)
Definition asdict_items (fields : list (string * value)) : list (string * value) :=
  map (fun '(k, v) => (k, asdict_inner v)) fields.

(** ** [StandardMessage.to_dict] *)

Lemma vsize_In_list (items : list value) (x : value) :
  In x items -> vsize x < S (list_sum (map vsize items)).
Proof.
  induction items as [|y items IH]; simpl; [tauto|].
  intros [->|H]; [lia | specialize (IH H); lia].
Qed.

Lemma vsize_In_entries (entries : list (string * value)) (kv : string * value) :
  In kv entries ->
  vsize (snd kv) < S (list_sum (map (fun '(_, x) => vsize x) entries)).
Proof.
  induction entries as [|[k y] entries IH]; simpl; [tauto|].
  intros [<-|H]; simpl; [lia | specialize (IH H); lia].
Qed.

Lemma vsize_asdict_inner (obj : value) : vsize (asdict_inner obj) = vsize obj.
Proof.
  revert obj. fix IH 1. intros [ | | | | |items|entries| | |c fields]; simpl; try reflexivity.
  - f_equal. f_equal. induction items as [|x items IHl]; simpl; [reflexivity|].
    rewrite IH, IHl. reflexivity.
  - f_equal. f_equal. induction entries as [|[k x] entries IHl]; simpl; [reflexivity|].
    rewrite IH, IHl. reflexivity.
  - f_equal. f_equal. induction fields as [|[k x] fields IHl]; simpl; [reflexivity|].
    rewrite IH, IHl. reflexivity.
Qed.

Lemma vsize_asdict_items (fields : list (string * value)) :
  list_sum (map (fun '(_, x) => vsize x) (asdict_items fields)) =
  list_sum (map (fun '(_, x) => vsize x) fields).
Proof.
  unfold asdict_items.
  induction fields as [|[k x] fields IH]; simpl; [reflexivity|].
  rewrite vsize_asdict_inner, IH. reflexivity.
Qed.

Section Runtime.

(** [datetime.isoformat()] and [str(timedelta.total_seconds())] (a float
    rendered as text) come from the Python library. *)
Variable isoformat : datetime -> string.
Variable str_total_seconds : timedelta -> string.

(** [json.dumps] and [json.loads]. *)
Variable json_dumps : value -> outcome string.
Variable json_loads : string -> outcome value.

(** The message classes of the program, by name. *)
Variable classes : list (string * MessageClass).

(** The local function [_convert] of [to_dict]; the tests are tried in
    the order of the source. *)
Equations? _convert (obj : value) : value by wf (vsize obj) lt :=
  _convert (VMessage c fields) :=
    VDict (map_In (asdict_items fields) (fun kv _ => (fst kv, _convert (snd kv))));
  _convert (VList items) :=
    VList (map_In items (fun item _ => _convert item));
  _convert (VDict entries) :=
    VDict (map_In entries (fun kv _ => (fst kv, _convert (snd kv))));
  _convert (VDatetime d) := VStr (isoformat d);
  _convert (VTimedelta t) := VStr (str_total_seconds t ++ "s");
  _convert other := other.
Proof.
  - apply vsize_In_list; assumption.
  - match goal with H : In ?kv _ |- _ => apply (vsize_In_entries _ kv H) end.
  - rewrite <- vsize_asdict_items.
    match goal with H : In ?kv _ |- _ => apply (vsize_In_entries _ kv H) end.
Qed.

Definition to_dict (self : value) : value := _convert self.

(** One structural pass over a value, to compare [to_dict] with:
    instances and dictionaries become dictionaries of converted values,
    lists are converted element by element, a [datetime] becomes its
    [isoformat()], a [timedelta] its seconds followed by [s]. *)
Fixpoint convert_structural (obj : value) : value :=
  match obj with
  | VMessage _ fields => VDict (map (fun '(k, v) => (k, convert_structural v)) fields)
  | VList items => VList (map convert_structural items)
  | VDict entries => VDict (map (fun '(k, v) => (k, convert_structural v)) entries)
  | VDatetime d => VStr (isoformat d)
  | VTimedelta t => VStr (str_total_seconds t ++ "s")
  | other => other
  end.

(** ** [StandardMessage.to_json] *)
Definition to_json (self : value) : outcome string := json_dumps (to_dict self).

(** ** [StandardMessage.from_dict] *)

(** The test that guards the nested-message branch:
    [isinstance(field_value, dict) and hasattr(field_type, "__origin__")
     and field_type.__origin__ is not dict].
    [Some origin] when it holds, with the class that [field_type.from_dict]
    then resolves to: a subscripted generic forwards the attribute to its
    origin. *)
Definition nested_message_origin (field_value : value) (field_type : hint)
  : option string :=
  if isinstance_dict field_value then
    match __origin__ field_type with
    | Some origin => if String.eqb origin "dict" then None else Some origin
    | None => None
    end
  else None.

Section ProcessEntries.

(** [rec cls data] stands for [cls.from_dict(data)] in the loop. *)
Variable rec : string -> value -> outcome value.
Variable field_types : list (string * hint).

(** The loop over [data.items()] that fills [processed_data]. *)
Fixpoint process_entries (entries : list (string * value))
    (processed_data : list (string * value)) : outcome (list (string * value)) :=
  match entries with
  | [] => Return processed_data
  | (field_name, field_value) :: rest =>
      match dict_get field_name field_types with
      | Some field_type =>
          match nested_message_origin field_value field_type with
          | Some origin =>
              nested <- rec origin field_value ;;
              process_entries rest (dict_set processed_data field_name nested)
          | None =>
              process_entries rest (dict_set processed_data field_name field_value)
          end
      | None => process_entries rest processed_data
      end
  end.

End ProcessEntries.

(** [cls] is the name of the class the classmethod is called on; a class
    that is not a message class has no [from_dict]. *)
Fixpoint from_dict (cls : string) (data : value) {struct data} : outcome value :=
  match dict_get cls classes with
  | None => Raise (AttributeError (cls ++ " has no attribute from_dict"))
  | Some c =>
      let field_types := get_type_hints c in
      match data with
      | VDict entries =>
          processed_data <- process_entries from_dict field_types entries [] ;;
          construct c processed_data
      | _ => Raise (AttributeError "object has no attribute items")
      end
  end.

(** ** [StandardMessage.from_json] *)
Definition from_json (cls : string) (json_str : string) : outcome value :=
  data <- json_loads json_str ;;
  from_dict cls data.

End Runtime.

(** Examples to run the conversions on: message classes, and a JSON
    codec for flat objects (string keys; [null], booleans, integers,
    [NaN], the infinities and strings without quotes or backslashes as
    values), printed the way [json.dumps] prints them. *)
Module Demo.

Definition classes : list (string * MessageClass) :=
  [ ("Settings",
     {| __name__ := "Settings";
        __dataclass_fields__ :=
          [ {| fname := "title"; ftype := HClass "str";
               fspec := string_field 1 None false |};
            {| fname := "labels"; ftype := HAlias "dict" [HClass "str"; HClass "int"];
               fspec := map_field 2 "string" "int32" None |};
            {| fname := "retries"; ftype := HClass "int";
               fspec := int32_field 3 None true |} ] |});
    ("Point",
     {| __name__ := "Point";
        __dataclass_fields__ :=
          [ {| fname := "x"; ftype := HClass "int";
               fspec := int32_field 1 None false |};
            {| fname := "y"; ftype := HClass "int";
               fspec := int32_field 2 None false |};
            {| fname := "tag"; ftype := HClass "str";
               fspec := string_field 3 None true |} ] |}) ].

(** A class with a [float] field ([level: float]). *)
Definition classes_with_float : list (string * MessageClass) :=
  (classes ++
   [ ("Reading",
      {| __name__ := "Reading";
         __dataclass_fields__ :=
           [ {| fname := "sensor"; ftype := HClass "str";
                fspec := string_field 1 None false |};
             {| fname := "level"; ftype := HClass "float";
                fspec := dataclass_field 2 "double" None None None false |} ] |}) ])%list.

(** More classes: a field annotated with a message class ([start:
    Point]), one with [List[str]], one with a subscripted generic message
    class ([Box[int]]). *)
Definition more_classes : list (string * MessageClass) :=
  (classes ++
   [ ("Segment",
      {| __name__ := "Segment";
         __dataclass_fields__ :=
           [ {| fname := "start"; ftype := HClass "Point";
                fspec := message_field 1 None None false |};
             {| fname := "tags"; ftype := HAlias "list" [HClass "str"];
                fspec := string_field 2 None true |};
             {| fname := "box"; ftype := HAlias "Box" [HClass "int"];
                fspec := message_field 3 None None true |} ] |});
     ("Box",
      {| __name__ := "Box";
         __dataclass_fields__ :=
           [ {| fname := "item"; ftype := HClass "int";
                fspec := int32_field 1 None false |} ] |}) ])%list.

Definition isoformat (d : datetime) : string :=
  str_of_int (year d) ++ "-" ++ str_of_int (month d) ++ "-" ++ str_of_int (day d).

Definition str_total_seconds (t : timedelta) : string :=
  str_of_int (days t * 86400 + seconds t) ++ ".0".

Definition quote : ascii := ascii_of_nat 34.

Definition plain_char (c : ascii) : bool :=
  negb (Ascii.eqb c quote) && negb (Ascii.eqb c "\")
  && Nat.leb 32 (nat_of_ascii c) && Nat.ltb (nat_of_ascii c) 127.

Fixpoint plain_text (s : string) : bool :=
  match s with
  | EmptyString => true
  | String c rest => plain_char c && plain_text rest
  end.

Definition dumps_string (s : string) : outcome string :=
  if plain_text s then Return (String quote s ++ String quote "")
  else Raise (ValueError "string outside the codec of the examples").

Definition dumps_primitive (v : value) : outcome string :=
  match v with
  | VNone => Return "null"
  | VBool true => Return "true"
  | VBool false => Return "false"
  | VInt n => Return (str_of_int n)
  | VFloat FNaN => Return "NaN"
  | VFloat (FInfinity false) => Return "Infinity"
  | VFloat (FInfinity true) => Return "-Infinity"
  | VStr s => dumps_string s
  | _ => Raise (TypeError "value outside the codec of the examples")
  end.

Fixpoint dumps_entries (entries : list (string * value)) : outcome string :=
  match entries with
  | [] => Return ""
  | (k, v) :: rest =>
      key <- dumps_string k ;;
      text <- dumps_primitive v ;;
      match rest with
      | [] => Return (key ++ ": " ++ text)
      | _ => more <- dumps_entries rest ;; Return (key ++ ": " ++ text ++ ", " ++ more)
      end
  end.

Definition json_dumps (v : value) : outcome string :=
  match v with
  | VDict entries => body <- dumps_entries entries ;; Return ("{" ++ body ++ "}")
  | _ => dumps_primitive v
  end.

Fixpoint skip (n : nat) (s : string) : string :=
  match n, s with
  | S k, String _ rest => skip k rest
  | _, _ => s
  end.

Fixpoint read_until_quote (s : string) : option (string * string) :=
  match s with
  | EmptyString => None
  | String c rest =>
      if Ascii.eqb c quote then Some ("", rest)
      else match read_until_quote rest with
           | Some (body, tail) => Some (String c body, tail)
           | None => None
           end
  end.

Definition digit_of (c : ascii) : option Z :=
  let n := nat_of_ascii c in
  if Nat.leb 48 n && Nat.leb n 57 then Some (Z.of_nat (n - 48)) else None.

Fixpoint read_digits (s : string) (acc : Z) (seen : bool) : option Z * string :=
  match s with
  | EmptyString => (if seen then Some acc else None, s)
  | String c rest =>
      match digit_of c with
      | Some d => read_digits rest (10 * acc + d)%Z true
      | None => (if seen then Some acc else None, s)
      end
  end.

Definition read_value (s : string) : option (value * string) :=
  match s with
  | EmptyString => None
  | String c rest =>
      if Ascii.eqb c quote then
        match read_until_quote rest with
        | Some (body, tail) => Some (VStr body, tail)
        | None => None
        end
      else if String.prefix "NaN" s then Some (VFloat FNaN, skip 3 s)
      else if String.prefix "Infinity" s then Some (VFloat (FInfinity false), skip 8 s)
      else if String.prefix "-Infinity" s then Some (VFloat (FInfinity true), skip 9 s)
      else if Ascii.eqb c "-" then
        match read_digits rest 0 false with
        | (Some n, tail) => Some (VInt (- n), tail)
        | (None, _) => None
        end
      else if String.prefix "null" s then Some (VNone, skip 4 s)
      else if String.prefix "true" s then Some (VBool true, skip 4 s)
      else if String.prefix "false" s then Some (VBool false, skip 5 s)
      else
        match read_digits s 0 false with
        | (Some n, tail) => Some (VInt n, tail)
        | (None, _) => None
        end
  end.

Fixpoint read_entries (fuel : nat) (s : string) : option (list (string * value)) :=
  match fuel, s with
  | S fuel', String c rest =>
      if Ascii.eqb c quote then
        match read_until_quote rest with
        | Some (k, tail) =>
            if String.prefix ": " tail then
              match read_value (skip 2 tail) with
              | Some (v, tail') =>
                  if String.eqb tail' "}" then Some [(k, v)]
                  else if String.prefix ", " tail' then
                    match read_entries fuel' (skip 2 tail') with
                    | Some more => Some ((k, v) :: more)
                    | None => None
                    end
                  else None
              | None => None
              end
            else None
        | None => None
        end
      else None
  | _, _ => None
  end.

Definition json_loads (text : string) : outcome value :=
  if String.eqb text "{}" then Return (VDict [])
  else if String.prefix "{" text then
    match read_entries (String.length text) (skip 1 text) with
    | Some entries => Return (VDict entries)
    | None => Raise (ValueError "Expecting value")
    end
  else
    match read_value text with
    | Some (v, EmptyString) => Return v
    | _ => Raise (ValueError "Expecting value")
    end.

End Demo.

End StandardMessage.

(** * plugin/standard_plugin.py *)

Module StandardPlugin.

(** ** [str.replace]

    Python strings are byte strings here; [".proto"] and ["_pb.py"] are
    ASCII, so the UTF-8 image of [str.replace] is the same replacement. *)

(** [s.replace(old, new)] for a non-empty [old]: scan left to right; at
    an occurrence of [old] emit [new] and skip the occurrence.  [skip]
    counts the characters of an occurrence still to pass over. *)
Fixpoint replace_from (skip : nat) (old new s : string) : string :=
  match s with
  | EmptyString => EmptyString
  | String c rest =>
      match skip with
      | S k => replace_from k old new rest
      | O =>
          if String.prefix old s
          then new ++ replace_from (String.length old - 1) old new rest
          else String c (replace_from 0 old new rest)
      end
  end.

(** With an empty [old], [new] goes before every character and at the end. *)
Fixpoint intersperse (new s : string) : string :=
  match s with
  | EmptyString => new
  | String c rest => new ++ String c (intersperse new rest)
  end.

Definition replace (s old new : string) : string :=
  match old with
  | EmptyString => intersperse new s
  | _ => replace_from 0 old new s
  end.

(** [old in s]: [old] occurs somewhere in [s]. *)
Fixpoint occurs (old s : string) : bool :=
  String.prefix old s
  || match s with
     | EmptyString => false
     | String _ rest => occurs old rest
     end.

Definition newline : string := String (ascii_of_nat 10) EmptyString.

(** ** Operations on JSON values *)

(** [obj.get(key, default)]: only dictionaries have [get]. *)
Definition py_get (obj : value) (key : string) (dflt : value) : outcome value :=
  match obj with
  | VDict entries =>
      match dict_get key entries with
      | Some v => Return v
      | None => Return dflt
      end
  | _ => Raise (AttributeError "object has no attribute get")
  end.

(** [obj.replace(old, new)]: only strings have [replace] among the values
    [json.loads] builds. *)
Definition py_replace (obj : value) (old new : string) : outcome string :=
  match obj with
  | VStr s => Return (replace s old new)
  | _ => Raise (AttributeError "object has no attribute replace")
  end.

(** [obj.encode()]. *)
Definition py_encode (obj : value) : outcome string :=
  match obj with
  | VStr s => Return s
  | _ => Raise (AttributeError "object has no attribute encode")
  end.

Fixpoint chars (s : string) : list value :=
  match s with
  | EmptyString => []
  | String c rest => VStr (String c EmptyString) :: chars rest
  end.

(** The items a [for] loop draws from an object. *)
Definition py_iter (obj : value) : outcome (list value) :=
  match obj with
  | VList items => Return items
  | VDict entries => Return (map VStr (keys entries))
  | VStr s => Return (chars s)
  | _ => Raise (TypeError "object is not iterable")
  end.

(** The test of the loop of [main] on a file: its ["name"] is there and
    is truthy. *)
Definition has_name (proto_file : value) : bool :=
  match py_get proto_file "name" (VStr "") with
  | Return proto_name => truthy proto_name
  | Raise _ => false
  end.

(** A file system: the paths that can be opened for reading, with their
    content. *)
Definition filesystem : Type := list (string * string).

(** [f.write(text)] on a file opened for writing appends to what has
    been written since the file was opened.  The text is taken to fit
    the encoding of the file and the room on the disk, and newlines are
    written as they are, as on POSIX. *)
Definition fs_write (fs : filesystem) (path text : string) : filesystem :=
  match dict_get path fs with
  | Some old => dict_set fs path (old ++ text)
  | None => dict_set fs path text
  end.

Section Plugin.

(** The collaborators that live outside these sources: the schema parser
    ([Parser.parse_proto]), the compiler ([Compiler.compile_parsed]) and
    the Jinja environment with its templates. *)
Variables parsed compiled template : Type.
Variable parse_proto : string -> outcome parsed.
Variable compile_parsed : parsed -> bool -> outcome compiled.
Variable get_template : string -> outcome template.
Variable render : template -> option compiled -> outcome string.

(** The operating system: [writable path] tells whether
    [open(path, "w")] succeeds (the path is not empty, its directory
    exists, the process may create or truncate the file). *)
Variable writable : string -> bool.

Variable json_loads : string -> outcome value.
Variable json_dumps : value -> outcome string.

Definition _get_header_template : outcome string :=
  t <- get_template "standard_header.py.j2" ;;
  render t None.

Definition _get_code_template : outcome string :=
  t <- get_template "standard_template.py.j2" ;;
  render t None.

(** ** [generate_code]

    Returns the file system it leaves behind and how it ended.  The
    overrides [package_override] and [python_module_override] are not
    used by the body. *)
Definition generate_code (proto_file output_file : string)
    (include_imports : bool) (fs : filesystem) : filesystem * outcome unit :=
  match dict_get proto_file fs with
  | None => (fs, Raise (OSError ("No such file or directory: " ++ proto_file)))
  | Some proto_content =>
      match
        (parsed_file <- parse_proto proto_content ;;
         compiled_file <- compile_parsed parsed_file include_imports ;;
         header_template <- get_template "standard_header.py.j2" ;;
         code_template <- get_template "standard_template.py.j2" ;;
         Return (compiled_file, header_template, code_template))
      with
      | Raise e => (fs, Raise e)
      | Return (compiled_file, header_template, code_template) =>
          if writable output_file then
            let fs := dict_set fs output_file "" in
            match render header_template (Some compiled_file) with
            | Raise e => (fs, Raise e)
            | Return header =>
                let fs := fs_write fs output_file header in
                let fs := fs_write fs output_file (newline ++ newline) in
                match render code_template (Some compiled_file) with
                | Raise e => (fs, Raise e)
                | Return code => (fs_write fs output_file code, Return tt)
                end
            end
          else
            (fs, Raise (OSError ("Cannot open for writing: " ++ output_file)))
      end
  end.

(** ** [main] *)

(** The body of the [for] loop of [main] for one [proto_file]:
    [None] is [continue], [Some entry] is the dictionary appended to
    [response["file"]]. *)
Definition main_body (proto_file : value) : outcome (option value) :=
  proto_name <- py_get proto_file "name" (VStr "") ;;
  if negb (truthy proto_name) then Return None
  else
    output_file <- py_replace proto_name ".proto" "_pb.py" ;;
    source <- py_get proto_file "content" (VStr "") ;;
    source_bytes <- py_encode source ;;
    parsed_file <- parse_proto source_bytes ;;
    compiled_file <- compile_parsed parsed_file false ;;
    header_template <- get_template "standard_header.py.j2" ;;
    code_template <- get_template "standard_template.py.j2" ;;
    header <- render header_template (Some compiled_file) ;;
    let content := header in
    let content := content ++ (newline ++ newline) in
    code <- render code_template (Some compiled_file) ;;
    let content := content ++ code in
    Return (Some (VDict [("name", VStr output_file); ("content", VStr content)])).

Fixpoint main_loop (proto_files : list value) (response_file : list value)
  : outcome (list value) :=
  match proto_files with
  | [] => Return response_file
  | proto_file :: rest =>
      r <- main_body proto_file ;;
      match r with
      | None => main_loop rest response_file
      | Some entry => main_loop rest (response_file ++ [entry])%list
      end
  end.

(** [main] from the parsed request to the response dictionary. *)
Definition main_response (request : value) : outcome value :=
  file <- py_get request "file" (VList []) ;;
  proto_files <- py_iter file ;;
  response_file <- main_loop proto_files [] ;;
  Return (VDict [("file", VList response_file)]).

(** [main]: standard input to standard output. *)
Definition main (stdin : string) : outcome string :=
  request <- json_loads stdin ;;
  response <- main_response request ;;
  json_dumps response.

(** ** Vocabulary for the statements about [main] *)

(** [proto_file] is a named file: a dictionary whose ["name"] is the
    non-empty string [proto_name]. *)
Definition named (proto_file : value) (proto_name : string) : Prop :=
  py_get proto_file "name" (VStr "") = Return (VStr proto_name)
  /\ proto_name <> "".

(** The collaborators accept the content [source] (with
    [include_imports] as given): parsing and compiling it and rendering
    the two templates on the compiled file give [header] and [code]. *)
Definition stages (source : string) (include_imports : bool)
    (header code : string) : Prop :=
  exists parsed_file compiled_file header_template code_template,
    parse_proto source = Return parsed_file
    /\ compile_parsed parsed_file include_imports = Return compiled_file
    /\ get_template "standard_header.py.j2" = Return header_template
    /\ get_template "standard_template.py.j2" = Return code_template
    /\ render header_template (Some compiled_file) = Return header
    /\ render code_template (Some compiled_file) = Return code.

(** The first of the two renderings alone: the collaborators accept
    [source] up to the rendering of the header template, which gives
    [header]. *)
Definition header_stage (source : string) (include_imports : bool)
    (header : string) : Prop :=
  exists parsed_file compiled_file header_template code_template,
    parse_proto source = Return parsed_file
    /\ compile_parsed parsed_file include_imports = Return compiled_file
    /\ get_template "standard_header.py.j2" = Return header_template
    /\ get_template "standard_template.py.j2" = Return code_template
    /\ render header_template (Some compiled_file) = Return header.

(** The same for the ["content"] of a file of the request. *)
Definition renders (proto_file : value) (header code : string) : Prop :=
  exists source,
    py_get proto_file "content" (VStr "") = Return (VStr source)
    /\ stages source false header code.

(** The entry that [main] appends for a file. *)
Definition response_entry (output_file content : string) : value :=
  VDict [("name", VStr output_file); ("content", VStr content)].

(** What one round of the loop of [main] appends for the file [f]. *)
Definition appended (f out : value) : Prop :=
  exists n header code,
    named f n /\ renders f header code /\
    out = response_entry (replace n ".proto" "_pb.py")
                         (header ++ newline ++ newline ++ code).

End Plugin.

Arguments generate_code {parsed compiled template}.
Arguments main_body {parsed compiled template}.
Arguments main_loop {parsed compiled template}.
Arguments main_response {parsed compiled template}.
Arguments main {parsed compiled template}.
Arguments stages {parsed compiled template}.
Arguments header_stage {parsed compiled template}.
Arguments renders {parsed compiled template}.
Arguments appended {parsed compiled template}.

(** Stand-ins for the collaborators, to run [main] on examples: the
    parser and the compiler pass the text on, a template is its name and
    renders as [name:text]. *)
Module Demo.
Definition parse_proto (source : string) : outcome string := Return source.
Definition compile_parsed (p : string) (include_imports : bool) : outcome string :=
  Return p.
Definition get_template (name : string) : outcome string := Return name.
Definition render (t : string) (c : option string) : outcome string :=
  match c with
  | Some text => Return (t ++ ":" ++ text)
  | None => Return t
  end.
(** A renderer for which the code template fails, as a template that
    uses an undefined name does under [StrictUndefined]. *)
Definition render_code_fails (t : string) (c : option string) : outcome string :=
  if String.eqb t "standard_template.py.j2"
  then Raise (OtherError "UndefinedError" "name is undefined")
  else render t c.
(** A working directory without subdirectories, in which every file can
    be created or truncated. *)
Definition writable (path : string) : bool :=
  negb (String.eqb path "") && negb (occurs "/" path).
Definition request : value :=
  VDict [("file", VList [ VDict [("name", VStr "a.proto"); ("content", VStr "A")];
                          VDict [("name", VStr "dir/b.proto")] ])].
End Demo.

End StandardPlugin.

(** * plugin/compiler.py: the rule on field numbers *)

Module Compiler.

(** Modelled from the spec: a Field of the schema, with what the rule on
    field numbers reads of it, its declared name and its non-negative
    field number.  The schema compiler ([Compiler.compile_parsed], in
    betterproto/plugin/compiler.py) is not among the sources. *)
Record SchemaField : Type := {
  field_name : string;
  number : N
}.

(** Modelled from the spec: a Message of the schema, missing from the
    sources as the compiler is.  It has a name, owns an ordered sequence
    of Fields and may own nested Messages; containment is a tree. *)
Inductive Message : Type :=
| Build_Message (message_name : string) (fields : list SchemaField)
                (nested : list Message).

Definition message_name (m : Message) : string :=
  match m with Build_Message n _ _ => n end.

Definition fields (m : Message) : list SchemaField :=
  match m with Build_Message _ fs _ => fs end.

Definition nested (m : Message) : list Message :=
  match m with Build_Message _ _ ms => ms end.

(** A message and the messages nested in it, at any depth. *)
Fixpoint messages_of (m : Message) : list Message :=
  match m with
  | Build_Message _ _ ms => m :: flat_map messages_of ms
  end.

(** Modelled from the spec: the test of the compiler, missing from the
    sources, for [two fields in the same message share a number]: the
    first field, in declaration order, whose number a later field of the
    message carries too. *)
Fixpoint shared_number (fs : list SchemaField) : option SchemaField :=
  match fs with
  | [] => None
  | f :: rest =>
      if existsb (fun g => N.eqb (number g) (number f)) rest then Some f
      else shared_number rest
  end.

(** Modelled from the spec: the error of the compiler, missing from the
    sources, on such a message: [DuplicateFieldNumberError], fatal. *)
Definition check_field_numbers (m : Message) : outcome unit :=
  match shared_number (fields m) with
  | Some f =>
      Raise (DuplicateFieldNumberError
               ("field number " ++ str_of_int (Z.of_N (number f))
                  ++ " is used more than once in message " ++ message_name m))
  | None => Return tt
  end.

(** Modelled from the spec: the pass of the Compiled Model Builder, the
    part of [Compiler.compile_parsed] missing from the sources, over a
    message, its fields and its nested declarations, recursively and in
    declaration order.  It fails, and does not recover, if two fields of
    a message share a field number; the compiled message keeps the
    declared names and numbers.  Type resolution and classification, the
    other work of the pass, are left out. *)
Fixpoint compile_message (m : Message) : outcome Message :=
  match m with
  | Build_Message n fs ms =>
      _ <- check_field_numbers m ;;
      compiled <- (fix compile_all (ms : list Message) : outcome (list Message) :=
                     match ms with
                     | [] => Return []
                     | x :: rest =>
                         x' <- compile_message x ;;
                         rest' <- compile_all rest ;;
                         Return (x' :: rest')
                     end) ms ;;
      Return (Build_Message n fs compiled)
  end.

(** The nested messages one after the other, as [compile_message] runs
    through them. *)
Fixpoint compile_messages (ms : list Message) : outcome (list Message) :=
  match ms with
  | [] => Return []
  | x :: rest =>
      x' <- compile_message x ;;
      rest' <- compile_messages rest ;;
      Return (x' :: rest')
  end.

(** Two fields of the message, at different places of its declaration,
    carry the same number. *)
Definition shares_field_number (m : Message) : Prop :=
  exists i j f g,
    i <> j
    /\ nth_error (fields m) i = Some f
    /\ nth_error (fields m) j = Some g
    /\ number f = number g.

Module Demo.
(** [message Pair { int32 left = 1; int32 right = 1; }] inside
    [message Outer { string id = 1; }]. *)
Definition pair : Message :=
  Build_Message "Pair" [ {| field_name := "left"; number := 1 |};
                         {| field_name := "right"; number := 1 |} ] [].
Definition outer : Message :=
  Build_Message "Outer" [ {| field_name := "id"; number := 1 |} ] [pair].
(** The same with [right = 2]. *)
Definition outer_distinct : Message :=
  Build_Message "Outer" [ {| field_name := "id"; number := 1 |} ]
    [ Build_Message "Pair" [ {| field_name := "left"; number := 1 |};
                             {| field_name := "right"; number := 2 |} ] [] ].
End Demo.

End Compiler.

(** * Properties *)

(** ** The error monad and dictionaries *)

Lemma bind_Return {A B} (c : outcome A) (k : A -> outcome B) (b : B) :
  bind c k = Return b -> exists a, c = Return a /\ k a = Return b.
Proof.
  destruct c as [a|e]; simpl; intros H; [exists a; auto | discriminate].
Qed.

Ltac bind_inv H :=
  let a := fresh "a" in
  let Ha := fresh "H" a in
  apply bind_Return in H; destruct H as (a & Ha & H).

Lemma dict_get_app {A} k (d1 d2 : list (string * A)) :
  dict_get k (d1 ++ d2)%list =
  match dict_get k d1 with Some v => Some v | None => dict_get k d2 end.
Proof.
  induction d1 as [|[k' v'] d1 IH]; simpl; [reflexivity|].
  destruct (String.eqb k k'); auto.
Qed.

Lemma dict_get_None_iff {A} k (d : list (string * A)) :
  dict_get k d = None <-> ~ In k (keys d).
Proof.
  induction d as [|[k' v'] d IH]; simpl.
  - tauto.
  - destruct (String.eqb_spec k k') as [->|Hne].
    + split; [discriminate | intros H; exfalso; apply H; auto].
    + rewrite IH. split; intros H; [intros [E|I]; [congruence | tauto] | tauto].
Qed.

Lemma dict_get_Some_In {A} k (d : list (string * A)) v :
  dict_get k d = Some v -> In (k, v) d.
Proof.
  induction d as [|[k' v'] d IH]; simpl; [discriminate|].
  destruct (String.eqb_spec k k') as [->|Hne].
  - intros [= ->]. auto.
  - auto.
Qed.

Lemma NoDup_keys_functional {A} (d : list (string * A)) k a b :
  NoDup (keys d) -> In (k, a) d -> In (k, b) d -> a = b.
Proof.
  induction d as [|[k' v'] d IH]; simpl; [tauto|].
  intros Hnd Ha Hb. inversion Hnd as [|? ? Hnotin Hnd']; subst.
  destruct Ha as [Ha|Ha], Hb as [Hb|Hb].
  - congruence.
  - injection Ha as -> ->. exfalso. apply Hnotin.
    apply (in_map fst) in Hb. exact Hb.
  - injection Hb as -> ->. exfalso. apply Hnotin.
    apply (in_map fst) in Ha. exact Ha.
  - eauto.
Qed.

Lemma dict_get_In_NoDup {A} (d : list (string * A)) k v :
  NoDup (keys d) -> In (k, v) d -> dict_get k d = Some v.
Proof.
  intros Hnd Hin. destruct (dict_get k d) as [w|] eqn:E.
  - f_equal. eapply NoDup_keys_functional; eauto using dict_get_Some_In.
  - apply dict_get_None_iff in E. exfalso. apply E.
    apply (in_map fst) in Hin. exact Hin.
Qed.

Lemma dict_get_set_same {A} (d : list (string * A)) k v :
  dict_get k (dict_set d k v) = Some v.
Proof.
  induction d as [|[k' v'] d IH]; simpl.
  - now rewrite String.eqb_refl.
  - destruct (String.eqb k k') eqn:E; simpl; rewrite E; auto.
Qed.

Lemma dict_set_set {A} (d : list (string * A)) k v w :
  dict_set (dict_set d k v) k w = dict_set d k w.
Proof.
  induction d as [|[k' v'] d IH]; simpl.
  - now rewrite String.eqb_refl.
  - destruct (String.eqb k k') eqn:E; simpl; rewrite E; [reflexivity|].
    now rewrite IH.
Qed.

Lemma dict_get_set_other {A} (d : list (string * A)) k k' v :
  k <> k' -> dict_get k (dict_set d k' v) = dict_get k d.
Proof.
  intros Hne. induction d as [|[k0 v0] d IH]; simpl.
  - destruct (String.eqb_spec k k'); [contradiction | reflexivity].
  - destruct (String.eqb_spec k' k0) as [->|Hk0]; simpl.
    + destruct (String.eqb_spec k k0); [contradiction | reflexivity].
    + destruct (String.eqb k k0); [reflexivity | exact IH].
Qed.

Lemma dict_set_fresh {A} (d : list (string * A)) k v :
  ~ In k (keys d) -> dict_set d k v = (d ++ [(k, v)])%list.
Proof.
  induction d as [|[k' v'] d IH]; simpl; intros Hfresh; [reflexivity|].
  destruct (String.eqb_spec k k') as [->|_]; [exfalso; auto|].
  rewrite IH; [reflexivity | tauto].
Qed.

Lemma find_all_false {A} (p : A -> bool) (l : list A) :
  (forall x, In x l -> p x = false) -> find p l = None.
Proof.
  induction l as [|x l IH]; simpl; intros H; [reflexivity|].
  rewrite (H x (or_introl eq_refl)). apply IH. auto.
Qed.

(** ** standard_enum.py *)

Module StandardEnumFacts.
Import StandardEnum.

Lemma member_of_value_None mm v :
  member_of_value mm v = None <-> forall m, In m (values mm) -> value m <> v.
Proof.
  unfold member_of_value. split.
  - intros H m Hin E. pose proof (find_none _ _ H m Hin) as Hf.
    simpl in Hf. apply Z.eqb_neq in Hf. contradiction.
  - intros H. induction (values mm) as [|m ms IH]; simpl; [reflexivity|].
    destruct (Z.eqb_spec (value m) v) as [E|_].
    + exfalso. apply (H m); simpl; auto.
    + apply IH. intros m' Hin. apply H. simpl; auto.
Qed.

Lemma member_of_value_Some mm v m :
  member_of_value mm v = Some m -> In m (values mm) /\ value m = v.
Proof.
  unfold member_of_value. intros H. apply find_some in H.
  destruct H as [Hin Hv]. apply Z.eqb_eq in Hv. auto.
Qed.

(** One declaration appends one entry under the declared name; its member
    is an older one with the same value or the freshly made one. *)
Lemma add_member_inv mm n v mm' :
  add_member mm (n, v) = Return mm' ->
  ~ In n (keys mm) /\
  exists m, mm' = (mm ++ [(n, m)])%list /\ value m = v /\
            (In m (values mm) \/ m = Member n v).
Proof.
  unfold add_member. destruct (dict_get n mm) eqn:Hget; [discriminate|].
  apply dict_get_None_iff in Hget.
  destruct (member_of_value mm v) as [m|] eqn:Hm; intros [= <-];
    (split; [exact Hget|]).
  - apply member_of_value_Some in Hm. exists m; tauto.
  - exists (Member n v); auto.
Qed.

Lemma add_members_prefix body : forall mm mm',
  add_members body mm = Return mm' -> exists tail, mm' = (mm ++ tail)%list.
Proof.
  induction body as [|[n v] body IH]; simpl; intros mm mm' H.
  - injection H as <-. exists []. now rewrite app_nil_r.
  - bind_inv H. apply add_member_inv in Ha. destruct Ha as (_ & m & -> & _).
    apply IH in H. destruct H as [tail ->]. exists ((n, m) :: tail).
    now rewrite <- app_assoc.
Qed.

Lemma add_members_keys body : forall mm mm',
  add_members body mm = Return mm' ->
  NoDup (keys mm) ->
  keys mm' = (keys mm ++ map fst body)%list /\ NoDup (keys mm').
Proof.
  induction body as [|[n v] body IH]; simpl; intros mm mm' H Hnd.
  - injection H as <-. now rewrite app_nil_r.
  - bind_inv H. apply add_member_inv in Ha. destruct Ha as (Hfresh & m & -> & _).
    apply IH in H.
    + destruct H as [-> Hnd']. split; [|exact Hnd'].
      unfold keys. rewrite map_app. simpl. now rewrite <- app_assoc.
    + unfold keys. rewrite map_app. simpl.
      apply NoDup_app; [exact Hnd | repeat constructor; simpl; tauto |].
      intros x Hx [<-|[]]. contradiction.
Qed.

(** Every entry of the member map comes from a declaration: the key with
    the member's value, and the member itself under its own name. *)
Lemma add_members_entries body : forall mm mm' k m,
  add_members body mm = Return mm' ->
  In (k, m) mm' ->
  In (k, m) mm \/
  (In (k, value m) body /\ (In m (values mm) \/ In (name m, value m) body)).
Proof.
  induction body as [|[n v] body IH]; simpl; intros mm mm' k m H Hin.
  - injection H as <-. auto.
  - bind_inv H. apply add_member_inv in Ha.
    destruct Ha as (_ & m0 & -> & Hv & Horigin).
    assert (Hm0 : In m0 (values mm) \/ (name m0, value m0) = (n, v))
      by (destruct Horigin as [?| ->]; auto).
    destruct (IH _ _ _ _ H Hin) as [Hold | [Hk Hm]].
    + apply in_app_or in Hold. destruct Hold as [Hold | [[= -> ->] | []]].
      * auto.
      * right. split; [left; now rewrite Hv|].
        destruct Hm0 as [?|E]; [auto | right; left; now symmetry].
    + right. split; [auto|].
      destruct Hm as [Hm | Hm]; [|auto].
      unfold values in Hm. rewrite map_app in Hm. apply in_app_or in Hm.
      destruct Hm as [Hm | [<- | []]]; [auto|].
      destruct Hm0 as [?|E]; [auto | right; left; now symmetry].
Qed.

Lemma define_enum_inv cname body E :
  define_enum cname body = Return E ->
  __name__ E = cname /\ add_members (lines body) [] = Return (__members__ E).
Proof.
  unfold define_enum. intros H. bind_inv H. injection H as <-. auto.
Qed.

Lemma define_enum_members cname body E :
  define_enum cname body = Return E ->
  keys (__members__ E) = map fst (lines body) /\
  NoDup (map fst (lines body)) /\
  forall k m, In (k, m) (__members__ E) ->
              In (k, value m) (lines body) /\ In (name m, value m) (lines body).
Proof.
  intros H. apply define_enum_inv in H. destruct H as [_ H].
  destruct (add_members_keys _ _ _ H (NoDup_nil _)) as [Hk Hnd]. simpl in Hk.
  split; [exact Hk|]. split; [now rewrite <- Hk|].
  intros k m Hin. destruct (add_members_entries _ _ _ _ _ H Hin) as [[]|[H1 [[]|H2]]].
  auto.
Qed.

(** The first declaration of the class body is the first entry of
    [__members__], under its own name and value. *)
Lemma define_enum_first cname d rest E :
  define_enum cname (d :: rest) = Return E ->
  exists tail,
    __members__ E = (decl_name d, Member (decl_name d) (decl_value d)) :: tail.
Proof.
  intros H. apply define_enum_inv in H. destruct H as [_ H].
  simpl in H. apply add_members_prefix in H. exact H.
Qed.

Lemma In_lines body n v :
  In (n, v) (lines body) <-> exists d, In d body /\ decl_name d = n /\ decl_value d = v.
Proof.
  unfold lines. rewrite in_map_iff. split.
  - intros (d & [= <- <-] & Hin). eauto.
  - intros (d & Hin & <- & <-). eauto.
Qed.

(** No member of the class has a value that no declaration has. *)
Lemma undeclared_value_not_found cname body E v :
  define_enum cname body = Return E ->
  (forall d, In d body -> decl_value d <> v) ->
  member_of_value (__members__ E) v = None.
Proof.
  intros Hdef Hunknown.
  destruct (define_enum_members _ _ _ Hdef) as (_ & _ & Hentries).
  apply member_of_value_None. intros m Hin Hv.
  unfold values in Hin. apply in_map_iff in Hin.
  destruct Hin as ([k m'] & <- & Hin). simpl in Hv.
  destruct (Hentries _ _ Hin) as [Hdecl _].
  apply In_lines in Hdecl. destruct Hdecl as (d & Hd & _ & Hval).
  apply (Hunknown d Hd). congruence.
Qed.

(** C1 (as stated, refuted).  An integer of more than 4300 digits that no
    member has: in the handler the f-string cannot format it, and
    [try_value] raises [ValueError] instead of returning the first
    member.  So does [try_value] when the warning filters turn warnings
    into errors: it raises the [UserWarning]. *)
Lemma call_found env cls v m :
  member_of_value (__members__ cls) v = Some m -> call env cls v = Return m.
Proof.
  unfold call. destruct (__members__ cls) as [|entry mm]; [discriminate|].
  now intros ->.
Qed.

Lemma call_not_found env cls v entry mm :
  __members__ cls = entry :: mm ->
  member_of_value (__members__ cls) v = None ->
  call env cls v =
    (text <- format_int (int_max_str_digits env) v ;;
     Raise (ValueError (text ++ " is not a valid " ++ __name__ cls))).
Proof. unfold call. intros Hmm. rewrite Hmm. now intros ->. Qed.

Lemma try_value_raises_on_unknown_value :
  exists E,
    define_enum "Color" Demo.color = Return E
    /\ (forall d, In d Demo.color -> decl_value d <> (10 ^ 4300)%Z)
    /\ try_value default_interpreter E (10 ^ 4300)
       = ([], Raise (ValueError
                      ("Exceeds the limit (4300 digits) for integer string "
                         ++ "conversion; use sys.set_int_max_str_digits() "
                         ++ "to increase the limit")))
    /\ try_value {| int_max_str_digits := 4300;
                    warnings_filter := action_error;
                    enum_call_needs_members := true |}
                 E 99
       = ([], Raise (UserWarning
                      "Unknown value 99 for enum Color, using first value as fallback")).
Proof.
  eexists. split; [reflexivity|]. split; [|split].
  - intros d [<-|[<-|[<-|[]]]]; vm_compute; discriminate.
  - vm_compute. reflexivity.
  - vm_compute. reflexivity.
Qed.

(** C1 (amended).  For every enum class [E] made from a class body whose
    first declaration is [d], and every integer [v] that no declaration
    has as its value and that the interpreter can format (at most
    [int_max_str_digits] digits): [try_value(E, v)] hands the warning of
    the source to [warnings.warn] and, unless the filters turn warnings
    into errors, raises nothing and returns the first declared member;
    the warning is shown unless a filter drops it.  The member the
    fallback designates, [next(iter(E.__members__.values()))], is the
    first declared member. *)
Theorem try_value_unknown_returns_first :
  forall env cname d rest E v,
    define_enum cname (d :: rest) = Return E ->
    (forall d', In d' (d :: rest) -> decl_value d' <> v) ->
    exceeds_max_str_digits (int_max_str_digits env) v = false ->
    try_value env E v =
      match warnings_filter env with
      | action_show =>
          (["Unknown value " ++ str_of_int v ++ " for enum " ++ cname
              ++ ", using first value as fallback"],
           Return (Member (decl_name d) (decl_value d)))
      | action_ignore => ([], Return (Member (decl_name d) (decl_value d)))
      | action_error =>
          ([], Raise (UserWarning
                        ("Unknown value " ++ str_of_int v ++ " for enum " ++ cname
                           ++ ", using first value as fallback")))
      end
    /\ next_iter (values (__members__ E))
       = Return (Member (decl_name d) (decl_value d)).
Proof.
  intros env cname d rest E v Hdef Hunknown Hfits.
  destruct (define_enum_first _ _ _ _ Hdef) as [tail Hmm].
  pose proof (define_enum_inv _ _ _ Hdef) as [Hname _].
  pose proof (undeclared_value_not_found _ _ _ _ Hdef Hunknown) as Hnone.
  unfold try_value. rewrite (call_not_found _ _ _ _ _ Hmm Hnone).
  unfold format_int, warnings_warn.
  rewrite Hfits, Hname, Hmm. simpl.
  destruct (warnings_filter env); auto.
Qed.

Lemma try_value_unknown_returns_first_witness :
  exists E,
    define_enum "Color" Demo.color = Return E /\
    try_value default_interpreter E 99 =
      (["Unknown value 99 for enum Color, using first value as fallback"],
       Return (Member "RED" 0)).
Proof.
  eexists. split; [reflexivity|].
  refine (proj1 (try_value_unknown_returns_first
                   default_interpreter "Color"
                   (Declare_member "RED" 0 eq_refl)
                   [ Declare_member "GREEN" 1 eq_refl;
                     Declare_member "BLUE" 2 eq_refl ]
                   _ 99%Z eq_refl _ eq_refl)).
  intros d' [<-|[<-|[<-|[]]]]; discriminate.
Defined.

(** A class without members has no first member, and [try_value] on it
    ends in an exception: the [TypeError] of the call where the
    interpreter asks for members, else what the handler meets, at the
    latest the [StopIteration] of [next]. *)
Lemma try_value_memberless env cname v :
  exists E e, define_enum cname [] = Return E /\
              snd (try_value env E v) = Raise e.
Proof.
  eexists. unfold try_value, call, format_int, warnings_warn. simpl.
  destruct (enum_call_needs_members env); simpl;
    [eexists; split; reflexivity|].
  destruct (exceeds_max_str_digits (int_max_str_digits env) v); simpl;
    [eexists; split; reflexivity|].
  destruct (warnings_filter env); simpl; eexists; split; reflexivity.
Qed.

(** C9. For every enum class [E] made from a class body and every string
    [s]: when the body declares [s = v], [from_string(E, s)] returns the
    member that [E.__members__] holds under [s], whose value is [v] (and
    whose name is [s] unless [s] is an alias, that is unless another name
    is declared with the value [v]); when the body declares no [s], it
    raises [ValueError] with the message of the source; it never raises
    [KeyError]. *)
Theorem from_string_member_or_ValueError :
  forall cname body E s,
    define_enum cname body = Return E ->
    (forall v, In (s, v) (lines body) ->
       exists m, from_string E s = Return m
                 /\ dict_get s (__members__ E) = Some m
                 /\ value m = v
                 /\ ((forall n, In (n, v) (lines body) -> n = s) -> name m = s))
    /\ (~ In s (map decl_name body) ->
        from_string E s =
          Raise (ValueError ("Unknown value " ++ s ++ " for enum " ++ cname)))
    /\ (forall k, from_string E s <> Raise (KeyError k)).
Proof.
  intros cname body E s Hdef.
  destruct (define_enum_members _ _ _ Hdef) as (Hkeys & Hnd & Hentries).
  pose proof (define_enum_inv _ _ _ Hdef) as [Hname _].
  split; [|split].
  - intros v Hin.
    destruct (dict_get s (__members__ E)) as [m|] eqn:Hget.
    + exists m. unfold from_string, getitem. rewrite Hget.
      apply dict_get_Some_In in Hget. destruct (Hentries _ _ Hget) as [Hk Hm].
      assert (Hv : value m = v)
        by (exact (NoDup_keys_functional (lines body) s _ _ Hnd Hk Hin)).
      repeat split; auto. intros Honly. apply Honly. now rewrite <- Hv.
    + apply dict_get_None_iff in Hget. rewrite Hkeys in Hget.
      exfalso. apply Hget. apply (in_map fst) in Hin. exact Hin.
  - intros Hnot. unfold from_string, getitem.
    assert (Hnot' : ~ In s (keys (__members__ E))).
    { rewrite Hkeys. unfold lines. rewrite map_map. exact Hnot. }
    apply dict_get_None_iff in Hnot'. now rewrite Hnot', Hname.
  - intros k. unfold from_string, getitem.
    destruct (dict_get s (__members__ E)); discriminate.
Qed.

Lemma from_string_member_or_ValueError_witness :
  exists E,
    define_enum "Color" Demo.color = Return E /\
    from_string E "GREEN" = Return (Member "GREEN" 1) /\
    from_string E "PINK" = Raise (ValueError "Unknown value PINK for enum Color").
Proof.
  eexists. split; [reflexivity|].
  pose proof (from_string_member_or_ValueError "Color" Demo.color _ "PINK"
                eq_refl) as (_ & Hmissing & _).
  split; [reflexivity|]. apply Hmissing.
  simpl. intros [H|[H|[H|[]]]]; discriminate.
Defined.

End StandardEnumFacts.

(** ** plugin/standard_plugin.py *)

Module StandardPluginFacts.
Import StandardPlugin.

Lemma string_app_assoc (a b c : string) : (a ++ b) ++ c = a ++ b ++ c.
Proof. induction a as [|x a IH]; simpl; [reflexivity | now rewrite IH]. Qed.

Lemma fs_write_after_set fs path old text :
  fs_write (dict_set fs path old) path text = dict_set fs path (old ++ text).
Proof. unfold fs_write. now rewrite dict_get_set_same, dict_set_set. Qed.

Section PluginFacts.

Variables parsed compiled template : Type.
Variable parse_proto : string -> outcome parsed.
Variable compile_parsed : parsed -> bool -> outcome compiled.
Variable get_template : string -> outcome template.
Variable render : template -> option compiled -> outcome string.
Variable writable : string -> bool.

#[local] Abbreviation main_body :=
  (main_body parse_proto compile_parsed get_template render).
#[local] Abbreviation main_loop :=
  (main_loop parse_proto compile_parsed get_template render).
#[local] Abbreviation main_response :=
  (main_response parse_proto compile_parsed get_template render).
#[local] Abbreviation generate_code :=
  (generate_code parse_proto compile_parsed get_template render writable).
#[local] Abbreviation stages :=
  (stages parse_proto compile_parsed get_template render).
#[local] Abbreviation renders :=
  (renders parse_proto compile_parsed get_template render).
#[local] Abbreviation appended :=
  (appended parse_proto compile_parsed get_template render).

Lemma named_truthy f n : named f n ->
  exists v, py_get f "name" (VStr "") = Return v /\ truthy v = true.
Proof.
  intros [Hget Hne]. exists (VStr n). split; [exact Hget|].
  simpl. now destruct (String.eqb_spec n "").
Qed.

(** The loop body appends an entry exactly when the file is named and
    the collaborators succeed on it. *)
Lemma main_body_Some f out :
  main_body f = Return (Some out) <-> appended f out.
Proof.
  unfold StandardPlugin.main_body, appended, named, StandardPlugin.renders,
    StandardPlugin.stages, response_entry. split.
  - intros H. bind_inv H. destruct (truthy a) eqn:Ht; simpl in H; [|discriminate].
    bind_inv H. destruct a as [ | | | |n| | | | | ]; simpl in Ha0; try discriminate.
    injection Ha0 as <-.
    bind_inv H. bind_inv H. destruct a as [ | | | |src| | | | | ]; simpl in Ha1; try discriminate.
    injection Ha1 as <-.
    do 6 bind_inv H. injection H as <-.
    exists n, a3, a4. split; [split; [exact Ha|]|split].
    + intros ->. discriminate.
    + exists src. split; [exact Ha0|]. exists a, a0, a1, a2. auto 10.
    + now rewrite string_app_assoc.
  - intros (n & header & code & [Hname Hne] & (src & Hsrc & p & c & ht & ct & H1 & H2 & H3 & H4 & H5 & H6) & ->).
    rewrite Hname. simpl. destruct (String.eqb_spec n ""); [contradiction|]. simpl.
    rewrite Hsrc. simpl. rewrite H1. simpl. rewrite H2. simpl.
    rewrite H3. simpl. rewrite H4. simpl. rewrite H5. simpl. rewrite H6. simpl.
    now rewrite string_app_assoc.
Qed.

(** The loop body skips a file only when its name is falsy. *)
Lemma main_body_None f :
  main_body f = Return None ->
  exists v, py_get f "name" (VStr "") = Return v /\ truthy v = false.
Proof.
  unfold StandardPlugin.main_body. intros H. bind_inv H. exists a. split; [exact Ha|].
  destruct (truthy a); [|reflexivity]. simpl in H.
  repeat (bind_inv H). discriminate.
Qed.

Lemma named_not_skipped f n : named f n -> main_body f <> Return None.
Proof.
  intros Hn Hskip. apply main_body_None in Hskip. destruct Hskip as (v & Hv & Hf).
  apply named_truthy in Hn. destruct Hn as (w & Hw & Ht). congruence.
Qed.

(** The loop keeps what was appended before and appends, in the order of
    the files, one entry for each file that is not skipped. *)
Lemma main_loop_appends files : forall acc outs,
  main_loop files acc = Return outs ->
  exists new, outs = (acc ++ new)%list /\
              Forall (fun out => exists f, In f files /\ appended f out) new.
Proof.
  induction files as [|f files IH]; simpl; intros acc outs H.
  - injection H as <-. exists []. now rewrite app_nil_r.
  - bind_inv H. destruct a as [entry|].
    + apply IH in H. destruct H as (new & -> & Hall).
      exists (entry :: new). rewrite <- app_assoc. split; [reflexivity|].
      constructor.
      * exists f. split; [now left | now apply main_body_Some].
      * eapply Forall_impl; [|exact Hall]. intros out (g & Hg & Hout).
        exists g. split; [now right | exact Hout].
    + apply IH in H. destruct H as (new & -> & Hall). exists new. split; [reflexivity|].
      eapply Forall_impl; [|exact Hall]. intros out (g & Hg & Hout).
      exists g. split; [now right | exact Hout].
Qed.

Lemma main_loop_named files : forall acc outs,
  (forall f, In f files -> exists n, named f n) ->
  main_loop files acc = Return outs ->
  exists new, outs = (acc ++ new)%list /\ Forall2 appended files new.
Proof.
  induction files as [|f files IH]; simpl; intros acc outs Hnamed H.
  - injection H as <-. exists []. rewrite app_nil_r. auto.
  - bind_inv H. destruct (Hnamed f (or_introl eq_refl)) as [n Hn].
    destruct a as [entry|]; [|exfalso; exact (named_not_skipped _ _ Hn Ha)].
    apply IH in H; [|intros g Hg; apply Hnamed; now right].
    destruct H as (new & -> & Hall). exists (entry :: new).
    rewrite <- app_assoc. split; [reflexivity|].
    constructor; [now apply main_body_Some | exact Hall].
Qed.

Lemma main_loop_succeeds files : forall acc,
  (forall f, In f files -> exists out, appended f out) ->
  exists outs, main_loop files acc = Return outs.
Proof.
  induction files as [|f files IH]; simpl; intros acc Hok.
  - eauto.
  - destruct (Hok f (or_introl eq_refl)) as [out Hout].
    apply main_body_Some in Hout. rewrite Hout. simpl.
    apply IH. intros g Hg. apply Hok. now right.
Qed.

Lemma main_response_inv request response :
  main_response request = Return response ->
  exists file files outs,
    py_get request "file" (VList []) = Return file /\
    py_iter file = Return files /\
    main_loop files [] = Return outs /\
    response = VDict [("file", VList outs)].
Proof.
  unfold StandardPlugin.main_response. intros H. do 3 bind_inv H.
  injection H as <-. exists a, a0, a1. auto.
Qed.

(** C2. For every request whose ["file"] is a list of named files (each
    a dictionary with a non-empty string under ["name"]): a response that
    [main] produces lists exactly one entry per file of the request, in
    the order of the request, the entry of a file being the one the loop
    body builds for it; and [main] does produce a response when the
    collaborators accept every file. *)
Theorem main_one_output_per_named_file :
  forall request files,
    py_get request "file" (VList []) = Return (VList files) ->
    (forall f, In f files -> exists n, named f n) ->
    (forall response,
        main_response request = Return response ->
        exists outs,
          response = VDict [("file", VList outs)]
          /\ List.length outs = List.length files
          /\ Forall2 appended files outs)
    /\ ((forall f, In f files -> exists header code, renders f header code) ->
        exists response, main_response request = Return response).
Proof.
  intros request files Hfile Hnamed. split.
  - intros response H. apply main_response_inv in H.
    destruct H as (file & files' & outs & Hget & Hiter & Hloop & ->).
    rewrite Hfile in Hget. injection Hget as <-. simpl in Hiter.
    injection Hiter as <-.
    destruct (main_loop_named _ _ _ Hnamed Hloop) as (new & -> & Hall).
    exists new. simpl. repeat split; [|exact Hall].
    symmetry. exact (Forall2_length Hall).
  - intros Hok. unfold StandardPlugin.main_response. rewrite Hfile. simpl.
    destruct (main_loop_succeeds files []) as [outs Houts].
    + intros f Hf. destruct (Hnamed f Hf) as [n Hn].
      destruct (Hok f Hf) as (header & code & Hr). eexists. exists n, header, code. eauto.
    + rewrite Houts. simpl. eauto.
Qed.

(** C8. The content of every generated file is the rendered header
    template, then the separator (two newlines), then the rendered code
    template: for every entry of a response of [main], and for the file
    that [generate_code] writes, which it does whenever the input file
    can be read, the collaborators accept it and the output file can be
    opened for writing. *)
Theorem content_is_header_then_code :
  (forall request response,
      main_response request = Return response ->
      exists files outs,
        (file <- py_get request "file" (VList []) ;; py_iter file) = Return files
        /\ response = VDict [("file", VList outs)]
        /\ Forall (fun out =>
                     exists f n header code,
                       In f files /\ named f n /\ renders f header code /\
                       out = response_entry (replace n ".proto" "_pb.py")
                               (header ++ newline ++ newline ++ code)) outs)
  /\ (forall proto_file output_file include_imports fs source header code,
        dict_get proto_file fs = Some source ->
        stages source include_imports header code ->
        writable output_file = true ->
        exists fs',
          generate_code proto_file output_file include_imports fs
            = (fs', Return tt)
          /\ dict_get output_file fs'
               = Some (header ++ newline ++ newline ++ code))
  /\ (forall proto_file output_file include_imports fs fs',
        generate_code proto_file output_file include_imports fs
          = (fs', Return tt) ->
        exists source header code,
          dict_get proto_file fs = Some source
          /\ stages source include_imports header code
          /\ writable output_file = true
          /\ dict_get output_file fs'
               = Some (header ++ newline ++ newline ++ code)).
Proof.
  split; [|split].
  - intros request response H. apply main_response_inv in H.
    destruct H as (file & files & outs & Hget & Hiter & Hloop & ->).
    exists files, outs. rewrite Hget. simpl. split; [exact Hiter|].
    split; [reflexivity|].
    apply main_loop_appends in Hloop. destruct Hloop as (new & -> & Hall).
    simpl. eapply Forall_impl; [|exact Hall].
    intros out (f & Hf & n & header & code & Hn & Hr & ->).
    exists f, n, header, code. auto.
  - intros proto_file output_file inc fs source header code Hsrc
      (p & c & ht & ct & H1 & H2 & H3 & H4 & H5 & H6) Hw.
    unfold StandardPlugin.generate_code.
    rewrite Hsrc, H1. simpl. rewrite H2. simpl. rewrite H3. simpl.
    rewrite H4. simpl. rewrite Hw, H5, H6.
    eexists. split; [reflexivity|].
    rewrite !fs_write_after_set, dict_get_set_same. simpl.
    now rewrite string_app_assoc.
  - intros proto_file output_file inc fs fs'.
    unfold StandardPlugin.generate_code.
    destruct (dict_get proto_file fs) as [source|]; [|discriminate].
    destruct (parse_proto source) as [p|] eqn:H1; simpl; [|discriminate].
    destruct (compile_parsed p inc) as [c|] eqn:H2; simpl; [|discriminate].
    destruct (get_template "standard_header.py.j2") as [ht|] eqn:H3; simpl;
      [|discriminate].
    destruct (get_template "standard_template.py.j2") as [ct|] eqn:H4; simpl;
      [|discriminate].
    destruct (writable output_file) eqn:Hw; [|discriminate].
    destruct (render ht (Some c)) as [header|] eqn:H5; [|discriminate].
    destruct (render ct (Some c)) as [code|] eqn:H6; [|discriminate].
    intros [= <-]. exists source, header, code. split; [reflexivity|]. split.
    + exists p, c, ht, ct. auto 10.
    + split; [reflexivity|].
      rewrite !fs_write_after_set, dict_get_set_same. simpl.
      now rewrite string_app_assoc.
Qed.

End PluginFacts.

Lemma main_one_output_per_named_file_witness :
  exists response,
    main_response Demo.parse_proto Demo.compile_parsed Demo.get_template
                  Demo.render Demo.request = Return response.
Proof.
  refine (proj2 (main_one_output_per_named_file _ _ _
                   Demo.parse_proto Demo.compile_parsed Demo.get_template
                   Demo.render Demo.request
                   [ VDict [("name", VStr "a.proto"); ("content", VStr "A")];
                     VDict [("name", VStr "dir/b.proto")] ]
                   eq_refl _) _).
  - intros f [<-|[<-|[]]]; eexists; (split; [reflexivity | discriminate]).
  - intros f [<-|[<-|[]]]; do 3 eexists; (split; [reflexivity|]);
      do 4 eexists; repeat split; reflexivity.
Defined.

Lemma content_is_header_then_code_witness :
  exists fs',
    generate_code Demo.parse_proto Demo.compile_parsed Demo.get_template
                  Demo.render Demo.writable
                  "a.proto" "a_pb.py" false [("a.proto", "A")]
      = (fs', Return tt)
    /\ dict_get "a_pb.py" fs'
         = Some ("standard_header.py.j2:A" ++ newline ++ newline
                   ++ "standard_template.py.j2:A").
Proof.
  refine (proj1 (proj2 (content_is_header_then_code _ _ _
                   Demo.parse_proto Demo.compile_parsed Demo.get_template
                   Demo.render Demo.writable))
            "a.proto" "a_pb.py" false [("a.proto", "A")] "A" _ _ eq_refl _
            eq_refl).
  do 4 eexists. repeat split; reflexivity.
Defined.

(** *** [str.replace] on file names *)

Lemma string_length_app (a b : string) :
  String.length (a ++ b) = String.length a + String.length b.
Proof. induction a as [|x a IH]; simpl; [reflexivity | now rewrite IH]. Qed.

(** Whether [a] starts [s ++ t] is decided inside [s] when [a] is not
    longer than [s]. *)
Lemma prefix_app_short (a : string) : forall s t,
  String.length a <= String.length s ->
  String.prefix a (s ++ t) = String.prefix a s.
Proof.
  induction a as [|x a IH]; intros s t Hlen.
  - destruct s, t; reflexivity.
  - destruct s as [|y s]; simpl in *; [lia|].
    destruct (ascii_dec x y); [apply IH; lia | reflexivity].
Qed.

Lemma replace_from_skip_all old new : forall s k,
  String.length s <= k -> replace_from k old new s = "".
Proof.
  induction s as [|c s IH]; intros k Hlen; simpl in *; [reflexivity|].
  destruct k as [|k]; [lia | apply IH; lia].
Qed.

(** A string in which [old] does not occur is left as it is. *)
Lemma replace_from_no_occurrence old new : forall s,
  occurs old s = false -> replace_from 0 old new s = s.
Proof.
  induction s as [|c s IH]; intros Hocc; [reflexivity|].
  cbn [occurs] in Hocc. apply orb_false_iff in Hocc.
  destruct Hocc as [Hpre Hocc].
  cbn [replace_from]. rewrite Hpre, (IH Hocc). reflexivity.
Qed.

(** X23.  When [".proto"] occurs in the name only as its extension,
    [main] names the output by replacing the extension: [stem.proto]
    becomes [stem_pb.py]. *)
Lemma output_name_single_extension : forall stem,
  occurs ".proto" (stem ++ ".prot") = false ->
  replace (stem ++ ".proto") ".proto" "_pb.py" = stem ++ "_pb.py".
Proof.
  unfold replace. induction stem as [|c stem IH]; intros Hocc; [reflexivity|].
  change (occurs ".proto" (String c stem ++ ".prot"))
    with (String.prefix ".proto" (String c stem ++ ".prot")
          || occurs ".proto" (stem ++ ".prot")) in Hocc.
  apply orb_false_iff in Hocc. destruct Hocc as [Hpre Hocc].
  change (String c stem ++ ".proto") with (String c (stem ++ ".proto")).
  cbn [replace_from].
  replace (String c (stem ++ ".proto")) with ((String c stem ++ ".prot") ++ "o")
    by (rewrite string_app_assoc; reflexivity).
  rewrite prefix_app_short, Hpre.
  - rewrite (IH Hocc). reflexivity.
  - rewrite string_length_app. simpl. lia.
Qed.

(** C3 (the code departs from the claim).  [str.replace] rewrites every
    occurrence of [".proto"], not only the extension: for the file name
    [model.prototype.proto] the output name is [model_pb.pytype_pb.py],
    where replacing the extension alone gives [model.prototype_pb.py]. *)
Theorem output_name_rewrites_inner_occurrence :
  main_body Demo.parse_proto Demo.compile_parsed Demo.get_template Demo.render
            (VDict [("name", VStr "model.prototype.proto")])
    = Return (Some (response_entry "model_pb.pytype_pb.py"
                      ("standard_header.py.j2:" ++ newline ++ newline
                         ++ "standard_template.py.j2:")))
  /\ replace "model.prototype.proto" ".proto" "_pb.py"
       <> "model.prototype" ++ "_pb.py".
Proof. split; [reflexivity | discriminate]. Qed.

End StandardPluginFacts.

(** ** standard_message.py: field records *)

Module StandardFieldFacts.
Import StandardMessage.

(** Every helper goes through [dataclass_field] and returns a record. *)
Lemma eval_field_call_returns c :
  eval_field_call c =
  Return {| default := match eval_field_call c with
                       | Return f => default f
                       | Raise _ => MISSING
                       end;
            metadata := [ ("betterproto_field_number", VInt (call_number c));
                          ("betterproto_proto_type", VStr (call_proto_type c)) ] |}.
Proof. destruct c; reflexivity. Qed.

(** C4 (as stated, refuted).  Two fields that differ only in their oneof
    group get the same record, so nothing computed from a record gives
    the group back. *)
Lemma oneof_group_not_recoverable :
  enum_field 1 (Some "shape") false = enum_field 1 (Some "colour") false
  /\ ~ (exists recover : Field -> option string,
          forall number proto_type map_types group wraps optional,
            recover (dataclass_field number proto_type map_types group
                                     wraps optional) = group).
Proof.
  split; [reflexivity|]. intros [recover H].
  pose proof (H 1%Z "enum" None (Some "shape") None false) as H1.
  pose proof (H 1%Z "enum" None (Some "colour") None false) as H2.
  change (dataclass_field 1 "enum" None (Some "colour") None false)
    with (dataclass_field 1 "enum" None (Some "shape") None false) in H2.
  rewrite H1 in H2. discriminate.
Qed.

(** C4 (amended).  A field created with a oneof group name is classified
    by its type category: its record stores the field number and the
    proto type, and nothing else; the group is not stored, the record is
    the one of the same call with any other group or with none.  This
    holds for [dataclass_field] and for every helper built on it. *)
Theorem field_record_keeps_type_not_group :
  (forall number proto_type map_types group wraps optional,
      metadata (dataclass_field number proto_type map_types group wraps optional)
        = [ ("betterproto_field_number", VInt number);
            ("betterproto_proto_type", VStr proto_type) ]
      /\ dataclass_field number proto_type map_types group wraps optional
         = dataclass_field number proto_type map_types None wraps optional)
  /\ (forall c group,
        exists f,
          eval_field_call (call_with_group group c) = Return f
          /\ field_proto_type f = Some (VStr (call_proto_type c))
          /\ field_number f = Some (VInt (call_number c))
          /\ dict_get "group" (metadata f) = None
          /\ eval_field_call c = Return f).
Proof.
  split.
  - intros. split; reflexivity.
  - intros c group. destruct c; eexists; repeat split; reflexivity.
Qed.

(** C5 (as stated, refuted).  Two map fields with different key and value
    types get the same record, so the types cannot be read back from it. *)
Lemma map_types_not_recoverable :
  map_field 1 "string" "int32" None = map_field 1 "int64" "bool" None
  /\ ~ (exists recover : Field -> string * string,
          forall number key_type value_type group,
            recover (map_field number key_type value_type group)
              = (key_type, value_type)).
Proof.
  split; [reflexivity|]. intros [recover H].
  pose proof (H 1%Z "string" "int32" None) as H1.
  pose proof (H 1%Z "int64" "bool" None) as H2.
  change (map_field 1 "int64" "bool" None)
    with (map_field 1 "string" "int32" None) in H2.
  rewrite H1 in H2. discriminate.
Qed.

(** C5 (amended).  The record of a map field stores its field number and
    the type category ["map"], and nothing else; the key and value types
    are not stored: the record is the same whichever types are declared. *)
Theorem map_field_records_category_only :
  forall number key_type value_type group,
    metadata (map_field number key_type value_type group)
      = [ ("betterproto_field_number", VInt number);
          ("betterproto_proto_type", VStr "map") ]
    /\ default (map_field number key_type value_type group) = MISSING
    /\ forall key_type' value_type',
         map_field number key_type' value_type' group
         = map_field number key_type value_type group.
Proof. intros. repeat split; reflexivity. Qed.

End StandardFieldFacts.

(** ** plugin/compiler.py: the rule on field numbers *)

Module CompilerFacts.
Import Compiler.

Lemma compile_message_unfold n fs ms :
  compile_message (Build_Message n fs ms)
  = (_ <- check_field_numbers (Build_Message n fs ms) ;;
     compiled <- compile_messages ms ;;
     Return (Build_Message n fs compiled)).
Proof.
  simpl. destruct (check_field_numbers (Build_Message n fs ms)); reflexivity.
Qed.

Lemma number_taken_In n fs :
  existsb (fun g => N.eqb (number g) n) fs = true <-> In n (map number fs).
Proof.
  rewrite existsb_exists, in_map_iff. split.
  - intros (g & Hin & Heq). apply N.eqb_eq in Heq. eauto.
  - intros (g & Heq & Hin). exists g. split; [exact Hin | now apply N.eqb_eq].
Qed.

(** The test finds nothing exactly on pairwise distinct numbers. *)
Lemma shared_number_None fs :
  shared_number fs = None <-> NoDup (map number fs).
Proof.
  induction fs as [|f fs IH]; simpl.
  - split; [constructor | reflexivity].
  - destruct (existsb (fun g => N.eqb (number g) (number f)) fs) eqn:Htaken.
    + split; [discriminate|]. intros H. inversion H as [|? ? Hnotin _].
      exfalso. apply Hnotin. now apply number_taken_In.
    + rewrite IH. split.
      * intros H. constructor; [|exact H]. intros Hin.
        apply number_taken_In in Hin. congruence.
      * intros H. now inversion H.
Qed.

Lemma map_number_nth fs i f :
  nth_error fs i = Some f -> nth_error (map number fs) i = Some (number f).
Proof. intros H. now rewrite nth_error_map, H. Qed.

(** Two places with the same number are what pairwise distinct numbers
    exclude. *)
Lemma shares_field_number_iff m :
  shares_field_number m <-> ~ NoDup (map number (fields m)).
Proof.
  unfold shares_field_number. split.
  - intros (i & j & f & g & Hne & Hi & Hj & Heq) Hnd.
    apply Hne. apply (proj1 (NoDup_nth_error _) Hnd).
    + apply nth_error_Some. rewrite (map_number_nth _ _ _ Hi). discriminate.
    + rewrite (map_number_nth _ _ _ Hi), (map_number_nth _ _ _ Hj). now rewrite Heq.
  - intros Hdup. induction (fields m) as [|f fs IH].
    + exfalso. apply Hdup. constructor.
    + destruct (in_dec N.eq_dec (number f) (map number fs)) as [Hin|Hnotin].
      * apply in_map_iff in Hin. destruct Hin as (g & Heq & Hin).
        apply In_nth_error in Hin. destruct Hin as [j Hj].
        exists 0, (S j), f, g. repeat split; auto.
      * destruct IH as (i & j & f' & g' & Hne & Hi & Hj & Heq).
        { intros Hnd. apply Hdup. simpl. now constructor. }
        exists (S i), (S j), f', g'. repeat split; auto.
Qed.

Lemma check_field_numbers_cases m :
  (NoDup (map number (fields m)) /\ check_field_numbers m = Return tt)
  \/ (shares_field_number m
      /\ exists msg, check_field_numbers m = Raise (DuplicateFieldNumberError msg)).
Proof.
  unfold check_field_numbers.
  destruct (shared_number (fields m)) as [f|] eqn:Hshared.
  - right. split; [|eauto]. apply shares_field_number_iff. intros Hnd.
    apply shared_number_None in Hnd. congruence.
  - left. split; [now apply shared_number_None | reflexivity].
Qed.

(** What [compile_message] does on a tree of messages, by the messages
    of the tree. *)
Lemma compile_message_cases : forall m,
  (Forall (fun m' => NoDup (map number (fields m'))) (messages_of m)
   /\ compile_message m = Return m)
  \/ (Exists shares_field_number (messages_of m)
      /\ exists msg, compile_message m = Raise (DuplicateFieldNumberError msg)).
Proof.
  fix IH 1. intros [n fs ms].
  assert (Hall :
    (Forall (fun m' => NoDup (map number (fields m'))) (flat_map messages_of ms)
     /\ compile_messages ms = Return ms)
    \/ (Exists shares_field_number (flat_map messages_of ms)
        /\ exists msg, compile_messages ms = Raise (DuplicateFieldNumberError msg))).
  { induction ms as [|x ms IHms]; simpl.
    - left. split; [constructor | reflexivity].
    - destruct (IH x) as [[Hx ->]|[Hx [msg ->]]]; simpl.
      + destruct IHms as [[Hms ->]|[Hms [msg ->]]]; simpl.
        * left. split; [|reflexivity]. apply Forall_app. now split.
        * right. split; [|eauto]. apply Exists_app. now right.
      + right. split; [|eauto]. apply Exists_app. now left. }
  rewrite compile_message_unfold.
  change (messages_of (Build_Message n fs ms))
    with (Build_Message n fs ms :: flat_map messages_of ms).
  destruct (check_field_numbers_cases (Build_Message n fs ms))
    as [[Hnd ->]|[Hdup [msg ->]]]; simpl.
  - destruct Hall as [[Hms ->]|[Hms [msg ->]]]; simpl.
    + left. split; [|reflexivity]. now constructor.
    + right. split; [|eauto]. now apply Exists_cons_tl.
  - right. split; [|eauto]. now apply Exists_cons_hd.
Qed.

(** C6.  Compiling a message in which two fields are declared with the
    same field number, or one that has such a message nested in it,
    raises [DuplicateFieldNumberError] and gives no compiled message;
    compiling a message whose fields, and those of every message nested
    in it, have pairwise distinct numbers raises no such error: it
    returns the message. *)
Theorem compile_message_duplicate_field_number :
  forall m,
    ((exists m', In m' (messages_of m) /\ shares_field_number m') ->
     exists msg, compile_message m = Raise (DuplicateFieldNumberError msg))
    /\ ((forall m', In m' (messages_of m) -> NoDup (map number (fields m'))) ->
        compile_message m = Return m
        /\ forall msg, compile_message m <> Raise (DuplicateFieldNumberError msg)).
Proof.
  intros m. destruct (compile_message_cases m) as [[Hall Hret]|[Hex Hraise]].
  - split.
    + intros (m' & Hin & Hdup). exfalso.
      apply shares_field_number_iff in Hdup. apply Hdup.
      exact (proj1 (Forall_forall _ _) Hall m' Hin).
    + intros _. split; [exact Hret|]. intros msg. rewrite Hret. discriminate.
  - split.
    + intros _. exact Hraise.
    + intros Hnd. exfalso. apply Exists_exists in Hex.
      destruct Hex as (m' & Hin & Hdup).
      apply shares_field_number_iff in Hdup. apply Hdup. now apply Hnd.
Qed.

Lemma compile_message_duplicate_field_number_witness :
  (exists msg, compile_message Demo.outer = Raise (DuplicateFieldNumberError msg))
  /\ compile_message Demo.outer_distinct = Return Demo.outer_distinct.
Proof.
  split.
  - apply (proj1 (compile_message_duplicate_field_number Demo.outer)).
    exists Demo.pair. split; [simpl; auto|].
    exists 0, 1, {| field_name := "left"; number := 1 |},
           {| field_name := "right"; number := 1 |}.
    repeat split; [discriminate].
  - apply (proj2 (compile_message_duplicate_field_number Demo.outer_distinct)).
    intros m' [<-|[<-|[]]]; simpl; repeat constructor; simpl; intuition discriminate.
Defined.

End CompilerFacts.

(** ** standard_message.py: conversions *)

Module StandardMessageFacts.
Import StandardMessage.

Lemma map_In_map {A B} (g : A -> B) (l : list A) :
  map_In l (fun x _ => g x) = map g l.
Proof. induction l as [|x l IH]; simpl; [reflexivity | now rewrite IH]. Qed.

(** *** The test of the nested-message branch *)

Lemma nested_message_origin_not_dict v t :
  isinstance_dict v = false -> nested_message_origin v t = None.
Proof. unfold nested_message_origin. now intros ->. Qed.

Lemma nested_message_origin_plain_mapping v t :
  plain_mapping t = true -> nested_message_origin v t = None.
Proof.
  unfold nested_message_origin. destruct (isinstance_dict v); [|reflexivity].
  destruct t as [cname|origin args]; simpl; [reflexivity|]. now intros ->.
Qed.

(** A class without [__origin__], a message class included, fails the
    test as well. *)
Lemma nested_message_origin_plain_class v cname :
  nested_message_origin v (HClass cname) = None.
Proof. unfold nested_message_origin. now destruct (isinstance_dict v). Qed.

(** *** The loop of [from_dict] *)

Section Loop.

Variable rec : string -> value -> outcome value.
Variable field_types : list (string * hint).

Lemma process_entries_step field_name field_value rest acc out :
  process_entries rec field_types ((field_name, field_value) :: rest) acc
    = Return out ->
  exists acc',
    process_entries rec field_types rest acc' = Return out
    /\ (forall k, k <> field_name -> dict_get k acc' = dict_get k acc)
    /\ (forall t, dict_get field_name field_types = Some t ->
                  nested_message_origin field_value t = None ->
                  acc' = dict_set acc field_name field_value).
Proof.
  simpl. destruct (dict_get field_name field_types) as [t|].
  - destruct (nested_message_origin field_value t) as [origin|] eqn:Hnested.
    + intros H. bind_inv H. exists (dict_set acc field_name a).
      split; [exact H|]. split.
      * intros k Hk. now apply dict_get_set_other.
      * intros t' [= <-] Hnone. congruence.
    + intros H. exists (dict_set acc field_name field_value).
      split; [exact H|]. split; [|reflexivity].
      intros k Hk. now apply dict_get_set_other.
  - intros H. exists acc. split; [exact H|]. split; [reflexivity | discriminate].
Qed.

(** A key that the remaining entries do not mention keeps its binding. *)
Lemma process_entries_untouched entries : forall acc out f,
  ~ In f (keys entries) ->
  process_entries rec field_types entries acc = Return out ->
  dict_get f out = dict_get f acc.
Proof.
  induction entries as [|[k v] entries IH]; intros acc out f Hnotin H.
  - simpl in H. now injection H as <-.
  - apply process_entries_step in H. destruct H as (acc' & H & Hother & _).
    simpl in Hnotin. rewrite (IH _ _ f) with (1 := fun I => Hnotin (or_intror I))
                                              (2 := H).
    apply Hother. intros ->. tauto.
Qed.

(** An entry whose value fails the nested-message test reaches
    [processed_data] as it is. *)
Lemma process_entries_raw entries : forall acc out f v t,
  NoDup (keys entries) ->
  In (f, v) entries ->
  dict_get f field_types = Some t ->
  nested_message_origin v t = None ->
  process_entries rec field_types entries acc = Return out ->
  dict_get f out = Some v.
Proof.
  induction entries as [|[k x] entries IH]; intros acc out f v t Hnd Hin Ht Hnone H.
  - destruct Hin.
  - simpl in Hnd. inversion Hnd as [|? ? Hfresh Hnd']; subst.
    apply process_entries_step in H. destruct H as (acc' & H & _ & Hraw).
    destruct Hin as [[= -> ->]|Hin].
    + rewrite (process_entries_untouched _ _ _ _ Hfresh H).
      rewrite (Hraw t Ht Hnone). apply dict_get_set_same.
    + exact (IH _ _ _ _ _ Hnd' Hin Ht Hnone H).
Qed.

(** Entries that are all primitive and all annotated are copied in order. *)
Lemma process_entries_primitive entries : forall acc,
  (forall k v, In (k, v) entries ->
     json_primitive v = true /\ exists t, dict_get k field_types = Some t) ->
  NoDup (keys acc ++ keys entries) ->
  process_entries rec field_types entries acc = Return (acc ++ entries)%list.
Proof.
  induction entries as [|[k v] entries IH]; intros acc Hall Hnd; simpl.
  - now rewrite app_nil_r.
  - destruct (Hall k v (or_introl eq_refl)) as [Hprim [t Ht]]. rewrite Ht.
    rewrite nested_message_origin_not_dict by (destruct v; simpl in *; congruence).
    simpl in Hnd. rewrite dict_set_fresh.
    + replace (acc ++ (k, v) :: entries)%list
        with ((acc ++ [(k, v)]) ++ entries)%list by now rewrite <- app_assoc.
      apply IH; [intros; apply Hall; now right|].
      unfold keys in *. rewrite map_app. simpl. now rewrite <- app_assoc.
    + apply NoDup_remove_2 in Hnd. intros Hin. apply Hnd. apply in_or_app. now left.
Qed.

End Loop.

(** *** Instance construction *)

Lemma init_fields_get fds kwargs : forall fs f v,
  init_fields fds kwargs = Return fs ->
  In f (map fname fds) ->
  dict_get f kwargs = Some v ->
  dict_get f fs = Some v.
Proof.
  induction fds as [|fd fds IH]; simpl; intros fs f v H Hin Hget; [tauto|].
  do 2 bind_inv H. injection H as <-. simpl.
  destruct (String.eqb_spec f (fname fd)) as [->|Hne].
  - rewrite Hget in Ha. congruence.
  - destruct Hin as [E|Hin]; [congruence|]. eauto.
Qed.

Lemma init_fields_exact fds kwargs : forall sub,
  map fst sub = map fname fds ->
  (forall k v, In (k, v) sub -> dict_get k kwargs = Some v) ->
  init_fields fds kwargs = Return sub.
Proof.
  induction fds as [|fd fds IH]; intros [|[k v] sub] Hkeys Hget;
    simpl in *; try discriminate; [reflexivity|].
  injection Hkeys as <- Hkeys.
  rewrite (Hget k v (or_introl eq_refl)). simpl.
  rewrite (IH sub Hkeys) by (intros; apply Hget; now right). reflexivity.
Qed.

Lemma construct_inv c kwargs inst :
  construct c kwargs = Return inst ->
  exists fs, init_fields (__dataclass_fields__ c) kwargs = Return fs
             /\ inst = VMessage (__name__ c) fs.
Proof.
  unfold construct. destruct (find _ _); [discriminate|].
  intros H. bind_inv H. injection H as <-. eauto.
Qed.

Lemma construct_exact c fields :
  keys fields = map fname (__dataclass_fields__ c) ->
  NoDup (keys fields) ->
  construct c fields = Return (VMessage (__name__ c) fields).
Proof.
  intros Hkeys Hnd. unfold construct. rewrite find_all_false.
  - rewrite (init_fields_exact _ _ fields Hkeys); [reflexivity|].
    intros k v Hin. now apply dict_get_In_NoDup.
  - intros k Hin. rewrite <- Hkeys. apply negb_false_iff, existsb_exists.
    exists k. split; [exact Hin | apply String.eqb_refl].
Qed.

Lemma get_type_hints_field c f t :
  dict_get f (get_type_hints c) = Some t ->
  In f (map fname (__dataclass_fields__ c)).
Proof.
  intros H. apply dict_get_Some_In in H. unfold get_type_hints in H.
  apply in_map_iff in H. destruct H as (fd & [= <- _] & Hin).
  now apply in_map.
Qed.

Lemma get_type_hints_keys c :
  keys (get_type_hints c) = map fname (__dataclass_fields__ c).
Proof. unfold keys, get_type_hints. rewrite map_map. reflexivity. Qed.

(** *** Equality of primitive values and of instances *)

Lemma dyadic_eqb_refl m e : dyadic_eqb m e m e = true.
Proof. unfold dyadic_eqb. apply Z.eqb_refl. Qed.

Lemma float_eqb_refl x : x <> FNaN -> float_eqb x x = true.
Proof.
  destruct x as [|s|s m e]; simpl; intros H.
  - contradiction.
  - now destruct s.
  - apply dyadic_eqb_refl.
Qed.

(** Every JSON-primitive value but a NaN equals itself. *)
Lemma primitive_eq_refl v :
  json_primitive v = true -> is_nan v = false -> primitive_eq v v = Some true.
Proof.
  destruct v as [ |b|n|x|s| | | | | ]; simpl; try discriminate; intros _ Hnan.
  - reflexivity.
  - f_equal. apply dyadic_eqb_refl.
  - f_equal. apply dyadic_eqb_refl.
  - f_equal. apply float_eqb_refl. intros ->. discriminate.
  - f_equal. apply String.eqb_refl.
Qed.

(** A NaN equals no primitive value. *)
Lemma primitive_eq_nan v w :
  is_nan w = true -> primitive_eq v w <> Some true.
Proof.
  destruct w as [ | | |[| |]| | | | | | ]; try discriminate. intros _.
  destruct v as [ |b|n|x|s| | | | | ]; simpl; try discriminate.
  destruct x; discriminate.
Qed.

Lemma primitive_eq_true_primitive v' v :
  primitive_eq v' v = Some true -> json_primitive v' = true.
Proof.
  destruct v' as [ |b|n|x|s| | | | | ]; try reflexivity;
    destruct v; simpl; discriminate.
Qed.

Lemma fields_eq_Forall2 xs ys :
  Forall2 (fun x y => primitive_eq x y = Some true) xs ys ->
  fields_eq xs ys = Some true.
Proof. induction 1 as [|x y xs ys Hxy _ IH]; simpl; [reflexivity | now rewrite Hxy]. Qed.

Lemma fields_eq_refl (fields : list (string * value)) :
  Forall (fun v => json_primitive v = true) (values fields) ->
  Forall (fun v => is_nan v = false) (values fields) ->
  fields_eq (values fields) (values fields) = Some true.
Proof.
  intros Hprim Hnan. apply fields_eq_Forall2.
  induction (values fields) as [|v vs IH]; constructor.
  - inversion Hprim; inversion Hnan; subst. now apply primitive_eq_refl.
  - inversion Hprim; inversion Hnan; subst. now apply IH.
Qed.

Lemma Forall2_Forall_l {A B} (R : A -> B -> Prop) (P : A -> Prop) xs ys :
  Forall2 R xs ys ->
  Forall (fun y => forall x, R x y -> P x) ys ->
  Forall P xs.
Proof.
  induction 1 as [|x y xs ys Hxy _ IH]; intros Hall; constructor.
  - inversion Hall; subst. eauto.
  - inversion Hall; subst. eauto.
Qed.

(** *** [to_dict] on primitive values *)

Section RuntimeFacts.

Variable isoformat : datetime -> string.
Variable str_total_seconds : timedelta -> string.
Variable json_dumps : value -> outcome string.
Variable json_loads : string -> outcome value.
Variable classes : list (string * MessageClass).

#[local] Abbreviation _convert := (_convert isoformat str_total_seconds).
#[local] Abbreviation to_dict := (to_dict isoformat str_total_seconds).
#[local] Abbreviation to_json := (to_json isoformat str_total_seconds json_dumps).
#[local] Abbreviation from_dict := (from_dict classes).
#[local] Abbreviation from_json := (from_json json_loads classes).

Lemma asdict_inner_primitive v : json_primitive v = true -> asdict_inner v = v.
Proof. destruct v; simpl; intros H; (reflexivity || discriminate). Qed.

Lemma convert_primitive v : json_primitive v = true -> _convert v = v.
Proof. destruct v; simpl; intros H; try discriminate; now simp _convert. Qed.

Lemma asdict_items_primitive fields :
  Forall (fun v => json_primitive v = true) (values fields) ->
  asdict_items fields = fields.
Proof.
  unfold asdict_items, values.
  induction fields as [|[k v] fields IH]; simpl; intros H; [reflexivity|].
  inversion H; subst. rewrite asdict_inner_primitive, IH; auto.
Qed.

Lemma to_dict_primitive cname fields :
  Forall (fun v => json_primitive v = true) (values fields) ->
  to_dict (VMessage cname fields) = VDict fields.
Proof.
  intros Hprim. unfold StandardMessage.to_dict. simp _convert.
  rewrite (map_In_map (fun kv => (fst kv, _convert (snd kv)))).
  rewrite asdict_items_primitive by exact Hprim. f_equal.
  unfold values in Hprim.
  induction fields as [|[k v] fields IH]; simpl; [reflexivity|].
  inversion Hprim; subst. rewrite convert_primitive, IH; auto.
Qed.

Lemma from_dict_unfold cls c entries :
  dict_get cls classes = Some c ->
  from_dict cls (VDict entries) =
    (processed_data <- process_entries from_dict (get_type_hints c) entries [] ;;
     construct c processed_data).
Proof. intros H. simpl. now rewrite H. Qed.

(** C7.  In [from_dict], for every field whose annotation is a plain
    mapping type ([dict], or a generic whose origin is [dict]) and every
    dictionary supplied for it: the nested-message test fails, so the
    dictionary is not converted; the instance that [from_dict] returns
    holds under that field the very dictionary that was supplied. *)
Theorem from_dict_keeps_mapping_field_raw :
  forall cls c f t entries d,
    dict_get cls classes = Some c ->
    dict_get f (get_type_hints c) = Some t ->
    plain_mapping t = true ->
    NoDup (keys entries) ->
    In (f, VDict d) entries ->
    nested_message_origin (VDict d) t = None
    /\ forall inst,
         from_dict cls (VDict entries) = Return inst ->
         exists fields,
           inst = VMessage (__name__ c) fields
           /\ dict_get f fields = Some (VDict d).
Proof.
  intros cls c f t entries d Hcls Ht Hmap Hnd Hin.
  pose proof (nested_message_origin_plain_mapping (VDict d) t Hmap) as Hnone.
  split; [exact Hnone|].
  intros inst H. rewrite (from_dict_unfold _ _ _ Hcls) in H. bind_inv H.
  apply construct_inv in H. destruct H as (fs & Hinit & ->).
  exists fs. split; [reflexivity|].
  eapply init_fields_get; [exact Hinit | eapply get_type_hints_field; exact Ht |].
  eapply process_entries_raw; eauto.
Qed.


End RuntimeFacts.

Ltac nodup_strings :=
  repeat (constructor; [simpl; intros H; repeat destruct H as [H|H];
                        (discriminate || contradiction) |]);
  constructor.

Lemma from_dict_keeps_mapping_field_raw_witness :
  exists fields,
    from_dict Demo.classes "Settings"
      (VDict [("title", VStr "limits"); ("labels", VDict [("cpu", VInt 2)])])
      = Return (VMessage "Settings" fields)
    /\ dict_get "labels" fields = Some (VDict [("cpu", VInt 2)]).
Proof.
  destruct (proj2 (from_dict_keeps_mapping_field_raw Demo.classes
                     "Settings" _ "labels" _
                     [("title", VStr "limits"); ("labels", VDict [("cpu", VInt 2)])]
                     [("cpu", VInt 2)] eq_refl eq_refl eq_refl
                     ltac:(nodup_strings) (or_intror (or_introl eq_refl)))
                  _ eq_refl) as (fields & Hinst & Hget).
  exists fields. split; [|exact Hget].
  simpl in Hinst. rewrite <- Hinst. reflexivity.
Defined.



End StandardMessageFacts.

(** * Further properties of standard_enum.py *)

Module StandardEnumExtra.
Import StandardEnum StandardEnumFacts.

Lemma values_app {A} (d1 d2 : list (string * A)) :
  values (d1 ++ d2)%list = (values d1 ++ values d2)%list.
Proof. unfold values. apply map_app. Qed.

Lemma keys_app {A} (d1 d2 : list (string * A)) :
  keys (d1 ++ d2)%list = (keys d1 ++ keys d2)%list.
Proof. unfold keys. apply map_app. Qed.

Lemma add_member_cases mm n v mm' :
  add_member mm (n, v) = Return mm' ->
  ~ In n (keys mm) /\
  ((exists m, In m (values mm) /\ value m = v /\ mm' = (mm ++ [(n, m)])%list)
   \/ ((forall m, In m (values mm) -> value m <> v)
       /\ mm' = (mm ++ [(n, Member n v)])%list)).
Proof.
  unfold add_member. destruct (dict_get n mm) eqn:Hget; [discriminate|].
  apply dict_get_None_iff in Hget.
  destruct (member_of_value mm v) as [m|] eqn:Hm; intros [= <-];
    (split; [exact Hget|]).
  - apply member_of_value_Some in Hm. left. exists m. tauto.
  - right. split; [|reflexivity]. now apply member_of_value_None.
Qed.

Lemma add_member_canonical mm n v mm' :
  canonical mm -> add_member mm (n, v) = Return mm' -> canonical mm'.
Proof.
  intros [Hk Hown Hval] H. apply add_member_cases in H.
  destruct H as [Hfresh [(m & Hin & Hv & ->) | (Hnew & ->)]].
  - constructor.
    + rewrite keys_app. simpl. apply NoDup_app; [exact Hk | repeat constructor; simpl; tauto |].
      intros x Hx [<-|[]]. contradiction.
    + intros m'. rewrite values_app. simpl. intros Hm'.
      apply in_or_app. left. apply Hown.
      apply in_app_or in Hm'. destruct Hm' as [?|[<-|[]]]; assumption.
    + intros m1 m2. rewrite values_app. simpl. intros H1 H2.
      apply Hval.
      * apply in_app_or in H1. destruct H1 as [?|[<-|[]]]; assumption.
      * apply in_app_or in H2. destruct H2 as [?|[<-|[]]]; assumption.
  - constructor.
    + rewrite keys_app. simpl. apply NoDup_app; [exact Hk | repeat constructor; simpl; tauto |].
      intros x Hx [<-|[]]. contradiction.
    + intros m'. rewrite values_app. simpl. intros Hm'.
      apply in_or_app. apply in_app_or in Hm'.
      destruct Hm' as [?|[<-|[]]]; [left; now apply Hown | right; now left].
    + intros m1 m2. rewrite values_app. simpl. intros H1 H2 Heq.
      apply in_app_or in H1. apply in_app_or in H2.
      destruct H1 as [H1|[<-|[]]], H2 as [H2|[<-|[]]].
      * now apply Hval.
      * exfalso. exact (Hnew _ H1 Heq).
      * exfalso. symmetry in Heq. exact (Hnew _ H2 Heq).
      * reflexivity.
Qed.

Lemma add_members_canonical body : forall mm mm',
  canonical mm -> add_members body mm = Return mm' -> canonical mm'.
Proof.
  induction body as [|[n v] body IH]; simpl; intros mm mm' Hc H.
  - now injection H as <-.
  - bind_inv H. exact (IH _ _ (add_member_canonical _ _ _ _ Hc Ha) H).
Qed.

Lemma define_enum_canonical cname body E :
  define_enum cname body = Return E -> canonical (__members__ E).
Proof.
  intros H. apply define_enum_inv in H. destruct H as [_ H].
  apply (add_members_canonical (lines body) [] _); [|exact H].
  constructor; simpl; [constructor | tauto | tauto].
Qed.

(** A declared name is a key of the member map, bound to a member with the
    declared value. *)
Lemma declared_member cname body E n v :
  define_enum cname body = Return E ->
  In (n, v) (lines body) ->
  exists m, In (n, m) (__members__ E) /\ value m = v.
Proof.
  intros Hdef Hin.
  destruct (define_enum_members _ _ _ Hdef) as (Hkeys & Hnd & Hentries).
  destruct (dict_get n (__members__ E)) as [m|] eqn:Hget.
  - apply dict_get_Some_In in Hget. exists m. split; [exact Hget|].
    destruct (Hentries _ _ Hget) as [Hk _].
    exact (NoDup_keys_functional (lines body) n _ _ Hnd Hk Hin).
  - apply dict_get_None_iff in Hget. rewrite Hkeys in Hget.
    exfalso. apply Hget. now apply (in_map fst) in Hin.
Qed.

Lemma In_lines_decl body d :
  In d body -> In (decl_name d, decl_value d) (lines body).
Proof. intros H. unfold lines. now apply (in_map (fun d => (decl_name d, decl_value d))). Qed.

Lemma member_of_value_canonical mm m :
  canonical mm -> In m (values mm) -> member_of_value mm (value m) = Some m.
Proof.
  intros Hc Hin. destruct (member_of_value mm (value m)) as [m'|] eqn:E.
  - apply member_of_value_Some in E. destruct E as [Hin' Hv].
    f_equal. now apply (canonical_values _ Hc).
  - exfalso. exact (proj1 (member_of_value_None _ _) E m Hin eq_refl).
Qed.

(** X1.  [try_value] on a declared value: no warning, and the result is
    the member with that value, which the class body declares under that
    member's name.  The settings of the interpreter play no part. *)
Theorem try_value_declared_value :
  forall env cname body E d,
    define_enum cname body = Return E ->
    In d body ->
    exists m,
      try_value env E (decl_value d) = ([], Return m)
      /\ value m = decl_value d
      /\ In m (values (__members__ E))
      /\ In (name m, decl_value d) (lines body).
Proof.
  intros env cname body E d Hdef Hin.
  destruct (declared_member _ _ _ _ _ Hdef (In_lines_decl _ _ Hin)) as (m & Hm & Hv).
  pose proof (define_enum_canonical _ _ _ Hdef) as Hc.
  destruct (define_enum_members _ _ _ Hdef) as (_ & _ & Hentries).
  assert (Hmv : In m (values (__members__ E)))
    by (apply (in_map snd) in Hm; exact Hm).
  exists m. unfold try_value.
  rewrite <- Hv, (call_found _ _ _ _ (member_of_value_canonical _ _ Hc Hmv)).
  repeat split; auto. exact (proj2 (Hentries _ _ Hm)).
Qed.

Lemma try_value_declared_value_witness :
  exists E,
    define_enum "Color" Demo.color = Return E /\
    exists m, try_value default_interpreter E 1 = ([], Return m) /\ value m = 1%Z.
Proof.
  eexists. split; [reflexivity|].
  destruct (try_value_declared_value default_interpreter "Color" Demo.color _
              (Declare_member "GREEN" 1 eq_refl)
              eq_refl (or_intror (or_introl eq_refl)))
    as (m & Htry & Hv & _).
  exists m. split; assumption.
Defined.

(** X2.  On a class with at least one declaration [try_value] never makes
    a new member and can fail only in its handler.  For every integer it
    returns one of the members of the class, or raises the [ValueError]
    of a value with more digits than the interpreter formats, or raises
    the [UserWarning] that the filters turn into an error; it returns a
    member whenever neither is the case.  It shows at most one warning,
    and none for a declared value. *)
Theorem try_value_total_on_members :
  forall env cname d rest E v,
    define_enum cname (d :: rest) = Return E ->
    ((exists m, snd (try_value env E v) = Return m
                /\ In m (values (__members__ E)))
     \/ (exists msg, snd (try_value env E v) = Raise (ValueError msg)
                     /\ exceeds_max_str_digits (int_max_str_digits env) v = true)
     \/ (exists msg, snd (try_value env E v) = Raise (UserWarning msg)
                     /\ warnings_filter env = action_error))
    /\ (exceeds_max_str_digits (int_max_str_digits env) v = false ->
        warnings_filter env <> action_error ->
        exists m, snd (try_value env E v) = Return m
                  /\ In m (values (__members__ E)))
    /\ List.length (fst (try_value env E v)) <= 1
    /\ ((exists d', In d' (d :: rest) /\ decl_value d' = v) ->
        fst (try_value env E v) = []
        /\ exists m, snd (try_value env E v) = Return m
                     /\ In m (values (__members__ E))).
Proof.
  intros env cname d rest E v Hdef.
  destruct (define_enum_first _ _ _ _ Hdef) as [tail Hmm].
  unfold try_value.
  destruct (member_of_value (__members__ E) v) as [m|] eqn:Hfind.
  - rewrite (call_found _ _ _ _ Hfind).
    apply member_of_value_Some in Hfind. destruct Hfind as [Hin Hv].
    simpl. repeat split; eauto.
  - rewrite (call_not_found _ _ _ _ _ Hmm Hfind).
    unfold format_int, warnings_warn.
    assert (Hfirst : In (Member (decl_name d) (decl_value d))
                        (values (__members__ E)))
      by (rewrite Hmm; simpl; auto).
    assert (Hundeclared : ~ exists d', In d' (d :: rest) /\ decl_value d' = v).
    { intros (d' & Hd' & Hv).
      destruct (declared_member _ _ _ _ _ Hdef (In_lines_decl _ _ Hd'))
        as (m & Hm & Hmv).
      apply (in_map snd) in Hm.
      apply (proj1 (member_of_value_None _ _) Hfind m Hm). congruence. }
    destruct (exceeds_max_str_digits (int_max_str_digits env) v) eqn:Hfits; simpl.
    + split; [right; left; eauto|].
      split; [discriminate|].
      split; [lia|]. intros H. now contradiction Hundeclared.
    + destruct (warnings_filter env) eqn:Hfilter; rewrite Hmm; simpl.
      * split; [left; eauto|]. split; [intros _ _; eauto|].
        split; [lia|]. intros H. now contradiction Hundeclared.
      * split; [left; eauto|]. split; [intros _ _; eauto|].
        split; [lia|]. intros H. now contradiction Hundeclared.
      * split; [right; right; eauto|].
        split; [intros _ Hne; now contradiction Hne|].
        split; [lia|]. intros H. now contradiction Hundeclared.
Qed.

Lemma try_value_total_on_members_witness :
  exists E,
    define_enum "Color" Demo.color = Return E /\
    exists m, snd (try_value default_interpreter E (-7)) = Return m
              /\ In m (values (__members__ E)).
Proof.
  eexists. split; [reflexivity|].
  refine (proj1 (proj2 (try_value_total_on_members default_interpreter "Color"
                          (Declare_member "RED" 0 eq_refl)
                          [ Declare_member "GREEN" 1 eq_refl;
                            Declare_member "BLUE" 2 eq_refl ]
                          _ (-7)%Z eq_refl)) eq_refl _).
  discriminate.
Defined.

(** X3.  Round trips through a member: for every member [m] of an enum
    class, [from_string(m.name)] is [m] and [try_value(m.value)] is [m],
    without a warning. *)
Theorem member_round_trips :
  forall env cname body E m,
    define_enum cname body = Return E ->
    In m (values (__members__ E)) ->
    from_string E (name m) = Return m
    /\ try_value env E (value m) = ([], Return m).
Proof.
  intros env cname body E m Hdef Hin.
  pose proof (define_enum_canonical _ _ _ Hdef) as Hc. split.
  - unfold from_string, getitem.
    rewrite (dict_get_In_NoDup _ _ _ (canonical_keys _ Hc)
               (canonical_own_name _ Hc _ Hin)).
    reflexivity.
  - unfold try_value.
    now rewrite (call_found _ _ _ _ (member_of_value_canonical _ _ Hc Hin)).
Qed.

Lemma member_round_trips_witness :
  exists E,
    define_enum "Color" Demo.color_with_alias = Return E /\
    from_string E "RED" = Return (Member "RED" 0) /\
    try_value default_interpreter E 0 = ([], Return (Member "RED" 0)).
Proof.
  eexists. split; [reflexivity|].
  refine (member_round_trips default_interpreter "Color" Demo.color_with_alias _
            (Member "RED" 0) eq_refl _).
  simpl. auto.
Defined.

(** X4.  Aliases: two names declared with the same value denote the same
    member; [from_string] returns for both the member that carries the
    name declared first with that value. *)
Theorem from_string_aliases_agree :
  forall cname body E s1 s2 v,
    define_enum cname body = Return E ->
    In (s1, v) (lines body) ->
    In (s2, v) (lines body) ->
    exists m,
      from_string E s1 = Return m /\ from_string E s2 = Return m
      /\ value m = v /\ In (name m, v) (lines body).
Proof.
  intros cname body E s1 s2 v Hdef H1 H2.
  pose proof (define_enum_canonical _ _ _ Hdef) as Hc.
  destruct (define_enum_members _ _ _ Hdef) as (_ & _ & Hentries).
  destruct (declared_member _ _ _ _ _ Hdef H1) as (m1 & Hm1 & Hv1).
  destruct (declared_member _ _ _ _ _ Hdef H2) as (m2 & Hm2 & Hv2).
  assert (m2 = m1).
  { apply (canonical_values _ Hc); [| |congruence].
    - apply (in_map snd) in Hm2. exact Hm2.
    - apply (in_map snd) in Hm1. exact Hm1. }
  subst m2. exists m1. unfold from_string, getitem.
  rewrite (dict_get_In_NoDup _ _ _ (canonical_keys _ Hc) Hm1).
  rewrite (dict_get_In_NoDup _ _ _ (canonical_keys _ Hc) Hm2).
  repeat split; auto. rewrite <- Hv1. exact (proj2 (Hentries _ _ Hm1)).
Qed.

Lemma from_string_aliases_agree_witness :
  exists E,
    define_enum "Color" Demo.color_with_alias = Return E /\
    exists m, from_string E "RED" = Return m /\ from_string E "CRIMSON" = Return m.
Proof.
  eexists. split; [reflexivity|].
  destruct (from_string_aliases_agree
              "Color" Demo.color_with_alias _
              "RED" "CRIMSON" 0%Z eq_refl
              (or_introl eq_refl) (or_intror (or_intror (or_introl eq_refl))))
    as (m & Ha & Hb & _).
  exists m. split; assumption.
Defined.

(** X24.  [try_value()] without an argument looks up the value 0: on a
    class whose first declaration has the value 0 it returns that first
    member, without a warning. *)
Theorem try_value_default_zero_first :
  forall env cname d rest E,
    decl_value d = 0%Z ->
    define_enum cname (d :: rest) = Return E ->
    try_value_default env E = ([], Return (Member (decl_name d) 0)).
Proof.
  intros env cname d rest E Hzero Hdef.
  destruct (define_enum_first _ _ _ _ Hdef) as [tail Hmm].
  unfold try_value_default, try_value.
  rewrite (call_found _ _ _ (Member (decl_name d) (decl_value d))).
  - now rewrite Hzero.
  - unfold member_of_value. rewrite Hmm. simpl. now rewrite Hzero.
Qed.

Lemma try_value_default_zero_first_witness :
  exists E,
    define_enum "Color" Demo.color = Return E /\
    try_value_default default_interpreter E = ([], Return (Member "RED" 0)).
Proof.
  eexists. split; [reflexivity|].
  exact (try_value_default_zero_first default_interpreter "Color"
           (Declare_member "RED" 0 eq_refl)
           [ Declare_member "GREEN" 1 eq_refl; Declare_member "BLUE" 2 eq_refl ]
           _ eq_refl eq_refl).
Defined.

End StandardEnumExtra.

(** * Further properties of standard_message.py *)

Module StandardMessageExtra.
Import StandardMessage StandardMessageFacts.

Lemma vsize_pos v : 1 <= vsize v.
Proof. destruct v; simpl; lia. Qed.

Lemma map_entries_ext (f g : value -> value) (entries : list (string * value)) :
  (forall kv, In kv entries -> f (snd kv) = g (snd kv)) ->
  map (fun '(k, v) => (k, f v)) entries = map (fun '(k, v) => (k, g v)) entries.
Proof.
  intros H. apply map_ext_in. intros [k v] Hin. f_equal. exact (H (k, v) Hin).
Qed.

Section ToDict.

Variable isoformat : datetime -> string.
Variable str_total_seconds : timedelta -> string.

#[local] Abbreviation _convert := (_convert isoformat str_total_seconds).
#[local] Abbreviation to_dict := (to_dict isoformat str_total_seconds).
#[local] Abbreviation convert_structural :=
  (convert_structural isoformat str_total_seconds).

Lemma convert_VList items :
  _convert (VList items) = VList (map _convert items).
Proof. simp _convert. now rewrite (map_In_map _convert). Qed.

Lemma convert_VDict entries :
  _convert (VDict entries) = VDict (map (fun '(k, v) => (k, _convert v)) entries).
Proof.
  simp _convert. rewrite (map_In_map (fun kv => (fst kv, _convert (snd kv)))).
  f_equal. apply map_ext. now intros [k v].
Qed.

Lemma convert_VMessage c fields :
  _convert (VMessage c fields) =
  VDict (map (fun '(k, v) => (k, _convert (asdict_inner v))) fields).
Proof.
  simp _convert. rewrite (map_In_map (fun kv => (fst kv, _convert (snd kv)))).
  f_equal. unfold asdict_items. rewrite map_map. apply map_ext. now intros [k v].
Qed.

(** The two passes of [to_dict] ([dataclasses.asdict], then [_convert])
    amount to one structural pass, also below instances. *)
Lemma convert_is_structural : forall n obj,
  vsize obj <= n ->
  _convert obj = convert_structural obj
  /\ _convert (asdict_inner obj) = convert_structural obj.
Proof.
  induction n as [|n IH]; intros obj Hsize.
  - pose proof (vsize_pos obj). lia.
  - destruct obj as [ | | | | |items|entries| | |c fields];
      try (split; simpl; now simp _convert).
    + assert (Hin : forall x, In x items -> vsize x <= n)
        by (intros x Hx; pose proof (vsize_In_list _ _ Hx); simpl in Hsize; lia).
      simpl. rewrite !convert_VList, map_map. split; f_equal;
        apply map_ext_in; intros x Hx; now apply IH, Hin.
    + assert (Hin : forall kv, In kv entries -> vsize (snd kv) <= n)
        by (intros x Hx; pose proof (vsize_In_entries _ _ Hx); simpl in Hsize; lia).
      simpl. rewrite !convert_VDict, map_map. split; f_equal.
      * apply map_entries_ext. intros kv Hkv. now apply IH, Hin.
      * apply map_ext_in. intros [k v] Hkv. f_equal.
        now apply (IH v), (Hin (k, v)).
    + assert (Hin : forall kv, In kv fields -> vsize (snd kv) <= n)
        by (intros x Hx; pose proof (vsize_In_entries _ _ Hx); simpl in Hsize; lia).
      simpl. rewrite convert_VMessage, convert_VDict, map_map. split; f_equal.
      * apply map_entries_ext. intros kv Hkv. now apply IH, Hin.
      * apply map_ext_in. intros [k v] Hkv. f_equal.
        now apply (IH v), (Hin (k, v)).
Qed.

Lemma convert_structural_shaped :
  forall obj, json_shaped (convert_structural obj) = true.
Proof.
  fix IH 1. intros [ | | | | |items|entries| | |c fields]; simpl; try reflexivity.
  - induction items as [|x items IHl]; simpl; [reflexivity|].
    now rewrite IH, IHl.
  - induction entries as [|[k x] entries IHl]; simpl; [reflexivity|].
    now rewrite IH, IHl.
  - induction fields as [|[k x] fields IHl]; simpl; [reflexivity|].
    now rewrite IH, IHl.
Qed.

Lemma convert_structural_fixes_shaped :
  forall obj, json_shaped obj = true -> convert_structural obj = obj.
Proof.
  fix IH 1. intros [ | | | | |items|entries| | |c fields]; simpl; intros Hs;
    try reflexivity; try discriminate.
  - f_equal. induction items as [|x items IHl]; simpl in *; [reflexivity|].
    apply andb_true_iff in Hs. destruct Hs as [Hx Hs].
    now rewrite (IH x Hx), (IHl Hs).
  - f_equal. induction entries as [|[k x] entries IHl]; simpl in *; [reflexivity|].
    apply andb_true_iff in Hs. destruct Hs as [Hx Hs].
    now rewrite (IH x Hx), (IHl Hs).
Qed.

(** X5.  On the values of the model ([None], booleans, integers, floats,
    strings, lists, dictionaries with string keys, [datetime],
    [timedelta] and message instances, nested at will; no tuple, set or
    other object), the result of [to_dict] is built from [None],
    booleans, integers, floats, strings, lists and dictionaries only: no
    message instance, [datetime] or [timedelta] is left at any depth. *)
Theorem to_dict_is_json_shaped :
  forall self, json_shaped (to_dict self) = true.
Proof.
  intros self. unfold StandardMessage.to_dict.
  rewrite (proj1 (convert_is_structural (vsize self) self (le_n _))).
  apply convert_structural_shaped.
Qed.

(** X6.  [_convert] leaves a value without instances, datetimes and
    timedeltas as it is; so converting the result of [to_dict] again
    changes nothing. *)
Theorem convert_idempotent :
  (forall obj, json_shaped obj = true -> _convert obj = obj)
  /\ (forall self, _convert (to_dict self) = to_dict self).
Proof.
  assert (Hfix : forall obj, json_shaped obj = true -> _convert obj = obj).
  { intros obj Hs.
    rewrite (proj1 (convert_is_structural (vsize obj) obj (le_n _))).
    now apply convert_structural_fixes_shaped. }
  split; [exact Hfix|].
  intros self. apply Hfix. unfold StandardMessage.to_dict.
  rewrite (proj1 (convert_is_structural (vsize self) self (le_n _))).
  apply convert_structural_shaped.
Qed.

(** X7.  [to_dict] is one structural pass: for an instance it gives the
    dictionary of its fields, in field order and under the field names,
    where nested instances, lists and dictionaries are converted all the
    way down and every [datetime] and [timedelta] is rendered as text. *)
Theorem to_dict_structural :
  forall self,
    to_dict self = convert_structural self
    /\ (forall cname fields,
          self = VMessage cname fields ->
          exists entries,
            to_dict self = VDict entries
            /\ keys entries = keys fields
            /\ values entries = map convert_structural (values fields)).
Proof.
  intros self.
  pose proof (proj1 (convert_is_structural (vsize self) self (le_n _))) as H.
  split; [exact H|].
  intros cname fields ->. unfold StandardMessage.to_dict. rewrite H. simpl.
  eexists. split; [reflexivity|]. unfold keys, values. rewrite !map_map.
  split; apply map_ext; now intros [k v].
Qed.

End ToDict.

(** ** [from_dict] *)

Lemma keys_dict_set {A} (d : list (string * A)) k v x :
  In x (keys (dict_set d k v)) -> x = k \/ In x (keys d).
Proof.
  induction d as [|[k' v'] d IH]; simpl.
  - intros [<-|[]]. now left.
  - destruct (String.eqb_spec k k') as [->|_]; simpl.
    + intros [<-|H]; auto.
    + intros [<-|H]; [auto | destruct (IH H); auto].
Qed.

Section Loop.

Variable rec : string -> value -> outcome value.
Variable field_types : list (string * hint).

(** Entries under a name that is not annotated are passed over. *)
Lemma process_entries_filter entries : forall acc,
  process_entries rec field_types entries acc =
  process_entries rec field_types
    (filter (fun kv => match dict_get (fst kv) field_types with
                       | Some _ => true
                       | None => false
                       end) entries) acc.
Proof.
  induction entries as [|[k v] entries IH]; intros acc; simpl; [reflexivity|].
  destruct (dict_get k field_types) as [t|] eqn:Ht; simpl; [|apply IH].
  rewrite Ht. destruct (nested_message_origin v t) as [origin|]; [|apply IH].
  destruct (rec origin v); simpl; [apply IH | reflexivity].
Qed.

(** Only annotated names get into [processed_data]. *)
Lemma process_entries_keys entries : forall acc out k,
  process_entries rec field_types entries acc = Return out ->
  In k (keys out) -> In k (keys acc) \/ In k (keys field_types).
Proof.
  induction entries as [|[f v] entries IH]; intros acc out k H Hin.
  - simpl in H. injection H as <-. now left.
  - simpl in H. destruct (dict_get f field_types) as [t|] eqn:Ht.
    + assert (Hf : In f (keys field_types)).
      { apply dict_get_Some_In in Ht. now apply (in_map fst) in Ht. }
      destruct (nested_message_origin v t) as [origin|].
      * bind_inv H. destruct (IH _ _ _ H Hin) as [Hk|Hk]; [|now right].
        apply keys_dict_set in Hk. destruct Hk as [->|Hk]; auto.
      * destruct (IH _ _ _ H Hin) as [Hk|Hk]; [|now right].
        apply keys_dict_set in Hk. destruct Hk as [->|Hk]; auto.
    + eauto.
Qed.

(** Without dictionaries among the values the loop cannot fail. *)
Lemma process_entries_no_dict entries : forall acc,
  (forall k v, In (k, v) entries -> isinstance_dict v = false) ->
  exists out, process_entries rec field_types entries acc = Return out.
Proof.
  induction entries as [|[k v] entries IH]; intros acc Hall; simpl; [eauto|].
  assert (Hrest : forall k' v', In (k', v') entries -> isinstance_dict v' = false)
    by (intros; eapply Hall; right; eauto).
  destruct (dict_get k field_types) as [t|]; [|now apply IH].
  rewrite nested_message_origin_not_dict by (apply (Hall k); now left).
  now apply IH.
Qed.

Lemma process_entries_step_nested k v rest acc out t origin :
  process_entries rec field_types ((k, v) :: rest) acc = Return out ->
  dict_get k field_types = Some t ->
  nested_message_origin v t = Some origin ->
  exists nested,
    rec origin v = Return nested
    /\ process_entries rec field_types rest (dict_set acc k nested) = Return out.
Proof.
  simpl. intros H Ht Hn. rewrite Ht, Hn in H. bind_inv H. eauto.
Qed.

(** An entry that passes the nested-message test reaches
    [processed_data] as what [from_dict] of the origin class makes of it. *)
Lemma process_entries_nested entries : forall acc out f v t origin,
  NoDup (keys entries) ->
  In (f, v) entries ->
  dict_get f field_types = Some t ->
  nested_message_origin v t = Some origin ->
  process_entries rec field_types entries acc = Return out ->
  exists nested, rec origin v = Return nested /\ dict_get f out = Some nested.
Proof.
  induction entries as [|[k x] entries IH];
    intros acc out f v t origin Hnd Hin Ht Hn H.
  - destruct Hin.
  - simpl in Hnd. inversion Hnd as [|? ? Hfresh Hnd']; subst.
    destruct Hin as [[= -> ->]|Hin].
    + destruct (process_entries_step_nested _ _ _ _ _ _ _ H Ht Hn)
        as (nested & Hrec & Hrest).
      exists nested. split; [exact Hrec|].
      rewrite (process_entries_untouched _ _ _ _ _ _ Hfresh Hrest).
      apply dict_get_set_same.
    + apply process_entries_step in H. destruct H as (acc' & H & _).
      exact (IH _ _ _ _ _ _ Hnd' Hin Ht Hn H).
Qed.

End Loop.

Lemma init_fields_missing fds kwargs : forall fd fs,
  In fd fds ->
  dict_get (fname fd) kwargs = None ->
  default (fspec fd) = MISSING ->
  init_fields fds kwargs <> Return fs.
Proof.
  induction fds as [|fd0 fds IH]; simpl; intros fd fs Hin Hget Hdef H; [tauto|].
  do 2 bind_inv H. destruct Hin as [->|Hin].
  - rewrite Hget, Hdef in Ha. discriminate.
  - exact (IH _ _ Hin Hget Hdef Ha0).
Qed.

Lemma init_fields_raises fds kwargs : forall e,
  init_fields fds kwargs = Raise e -> exists msg, e = TypeError msg.
Proof.
  induction fds as [|fd fds IH]; simpl; intros e H; [discriminate|].
  destruct (dict_get (fname fd) kwargs) as [v|]; simpl in H.
  - destruct (init_fields fds kwargs) as [vs|e'] eqn:E; simpl in H; [discriminate|].
    injection H as <-. now apply IH.
  - destruct (default (fspec fd)); simpl in H.
    + injection H as <-. eauto.
    + destruct (init_fields fds kwargs) as [vs|e'] eqn:E; simpl in H; [discriminate|].
      injection H as <-. now apply IH.
Qed.

Lemma construct_raises c kwargs e :
  construct c kwargs = Raise e -> exists msg, e = TypeError msg.
Proof.
  unfold construct. destruct (find _ _).
  - intros [= <-]. eauto.
  - destruct (init_fields _ _) as [fs|e'] eqn:E; simpl; [discriminate|].
    intros [= <-]. eapply init_fields_raises; eauto.
Qed.

Lemma init_fields_default fds kwargs : forall fd d fs,
  NoDup (map fname fds) ->
  In fd fds ->
  dict_get (fname fd) kwargs = None ->
  default (fspec fd) = Default d ->
  init_fields fds kwargs = Return fs ->
  dict_get (fname fd) fs = Some d.
Proof.
  induction fds as [|fd0 fds IH]; simpl; intros fd d fs Hnd Hin Hget Hdef H; [tauto|].
  inversion Hnd as [|? ? Hfresh Hnd']; subst.
  do 2 bind_inv H. injection H as <-. simpl.
  destruct Hin as [->|Hin].
  - rewrite String.eqb_refl. rewrite Hget, Hdef in Ha. congruence.
  - destruct (String.eqb_spec (fname fd) (fname fd0)) as [E|_].
    + exfalso. apply Hfresh. rewrite <- E. now apply in_map.
    + exact (IH _ _ _ Hnd' Hin Hget Hdef Ha0).
Qed.

Section FromDict.

Variable isoformat : datetime -> string.
Variable str_total_seconds : timedelta -> string.
Variable classes : list (string * MessageClass).

#[local] Abbreviation to_dict := (to_dict isoformat str_total_seconds).
#[local] Abbreviation convert_structural :=
  (convert_structural isoformat str_total_seconds).
#[local] Abbreviation from_dict := (from_dict classes).

Lemma from_dict_Return cls c entries inst :
  dict_get cls classes = Some c ->
  from_dict cls (VDict entries) = Return inst ->
  exists processed fields,
    process_entries from_dict (get_type_hints c) entries [] = Return processed
    /\ init_fields (__dataclass_fields__ c) processed = Return fields
    /\ inst = VMessage (__name__ c) fields.
Proof.
  intros Hcls H. rewrite (from_dict_unfold _ _ _ _ Hcls) in H. bind_inv H.
  apply construct_inv in H. destruct H as (fs & Hinit & ->). eauto.
Qed.

(** X8.  [from_dict] passes over every key of [data] that is not an
    annotated attribute of the class: the result, value or exception, is
    that of the same call without those entries. *)
Theorem from_dict_ignores_unknown_keys :
  forall cls c entries,
    dict_get cls classes = Some c ->
    from_dict cls (VDict entries) =
    from_dict cls
      (VDict (filter (fun kv => match dict_get (fst kv) (get_type_hints c) with
                                | Some _ => true
                                | None => false
                                end) entries)).
Proof.
  intros cls c entries Hcls.
  rewrite !(from_dict_unfold _ _ _ _ Hcls).
  now rewrite process_entries_filter.
Qed.

(** X9.  A field without a default that [data] does not mention makes
    [from_dict] fail: it never returns an instance, and when no value of
    [data] is a dictionary the exception is the [TypeError] of the
    constructor. *)
Theorem from_dict_missing_required_field :
  forall cls c fd entries,
    dict_get cls classes = Some c ->
    In fd (__dataclass_fields__ c) ->
    default (fspec fd) = MISSING ->
    ~ In (fname fd) (keys entries) ->
    (forall inst, from_dict cls (VDict entries) <> Return inst)
    /\ ((forall k v, In (k, v) entries -> isinstance_dict v = false) ->
        exists msg, from_dict cls (VDict entries) = Raise (TypeError msg)).
Proof.
  intros cls c fd entries Hcls Hfd Hdef Hmissing.
  assert (Hnever : forall inst, from_dict cls (VDict entries) <> Return inst).
  { intros inst H.
    destruct (from_dict_Return _ _ _ _ Hcls H) as (processed & fs & Hloop & Hinit & _).
    apply (init_fields_missing _ _ fd fs Hfd) in Hinit; [exact Hinit | | exact Hdef].
    now rewrite (process_entries_untouched _ _ _ _ _ _ Hmissing Hloop). }
  split; [exact Hnever|].
  intros Hplain.
  destruct (from_dict cls (VDict entries)) as [inst|e] eqn:H.
  - exfalso. exact (Hnever inst eq_refl).
  - rewrite (from_dict_unfold _ _ _ _ Hcls) in H.
    destruct (process_entries_no_dict from_dict (get_type_hints c) entries [] Hplain)
      as [out Hout].
    rewrite Hout in H. simpl in H.
    apply construct_raises in H. destruct H as [msg ->]. eauto.
Qed.

(** X10.  A field with a default that [data] does not mention takes the
    default; a field made by a helper with [optional=True] is [None]. *)
Theorem from_dict_missing_optional_field :
  forall cls c fd entries inst,
    dict_get cls classes = Some c ->
    NoDup (map fname (__dataclass_fields__ c)) ->
    In fd (__dataclass_fields__ c) ->
    ~ In (fname fd) (keys entries) ->
    from_dict cls (VDict entries) = Return inst ->
    exists fields,
      inst = VMessage (__name__ c) fields
      /\ (forall d, default (fspec fd) = Default d ->
                    dict_get (fname fd) fields = Some d)
      /\ (forall call, eval_field_call call = Return (fspec fd) ->
                       call_optional call = true ->
                       dict_get (fname fd) fields = Some VNone).
Proof.
  intros cls c fd entries inst Hcls Hnd Hfd Hmissing H.
  destruct (from_dict_Return _ _ _ _ Hcls H) as (processed & fs & Hloop & Hinit & ->).
  assert (Hget : dict_get (fname fd) processed = None)
    by now rewrite (process_entries_untouched _ _ _ _ _ _ Hmissing Hloop).
  assert (Hdefault : forall d, default (fspec fd) = Default d ->
                               dict_get (fname fd) fs = Some d)
    by (intros d Hd; exact (init_fields_default _ _ _ _ _ Hnd Hfd Hget Hd Hinit)).
  exists fs. split; [reflexivity|]. split; [exact Hdefault|].
  intros call Hcall Hopt. apply Hdefault.
  destruct call; simpl in Hcall, Hopt; injection Hcall as <-; subst;
    (reflexivity || discriminate).
Qed.

(** X11.  A field annotated with a class, a message class included, has
    no [__origin__]: a dictionary supplied for it is kept as a dictionary.
    So an instance that holds another instance in such a field does not
    come back from [from_dict(to_dict(m))]. *)
Theorem nested_message_is_not_rebuilt :
  forall cls c f cname fields,
    dict_get cls classes = Some c ->
    dict_get f (get_type_hints c) = Some (HClass cname) ->
    NoDup (keys fields) ->
    (forall d inst,
        In (f, VDict d) fields ->
        from_dict cls (VDict fields) = Return inst ->
        exists fs, inst = VMessage (__name__ c) fs
                   /\ dict_get f fs = Some (VDict d))
    /\ (forall sub subfields,
          In (f, VMessage sub subfields) fields ->
          from_dict cls (to_dict (VMessage cls fields))
            <> Return (VMessage cls fields)).
Proof.
  intros cls c f cname fields Hcls Ht Hnd.
  assert (Hraw : forall entries d inst,
             NoDup (keys entries) ->
             In (f, VDict d) entries ->
             from_dict cls (VDict entries) = Return inst ->
             exists fs, inst = VMessage (__name__ c) fs
                        /\ dict_get f fs = Some (VDict d)).
  { intros entries d inst Hnd' Hin H.
    destruct (from_dict_Return _ _ _ _ Hcls H) as (processed & fs & Hloop & Hinit & ->).
    exists fs. split; [reflexivity|].
    eapply init_fields_get; [exact Hinit | eapply get_type_hints_field; exact Ht |].
    eapply process_entries_raw; eauto using nested_message_origin_plain_class. }
  split; [intros d inst; now apply Hraw|].
  intros sub subfields Hin H.
  unfold StandardMessage.to_dict in H.
  rewrite (proj1 (convert_is_structural isoformat str_total_seconds
                    _ (VMessage cls fields) (le_n _))) in H.
  simpl in H.
  set (entries := map (fun '(k, v) => (k, convert_structural v)) fields) in H.
  assert (Hkeys : keys entries = keys fields).
  { unfold entries, keys. rewrite map_map. apply map_ext. now intros [k v]. }
  assert (Hin' : In (f, VDict (map (fun '(k, v) => (k, convert_structural v))
                                   subfields)) entries).
  { unfold entries. apply in_map_iff. exists (f, VMessage sub subfields).
    split; [reflexivity | exact Hin]. }
  rewrite <- Hkeys in Hnd.
  destruct (Hraw _ _ _ Hnd Hin' H) as (fs & [= _ <-] & Hget).
  rewrite Hkeys in Hnd.
  rewrite (dict_get_In_NoDup _ _ _ Hnd Hin) in Hget. discriminate.
Qed.

(** X12.  A field annotated with a subscripted generic whose origin is
    neither [dict] nor a message class ([List[T]], [Optional[T]], ...):
    a dictionary supplied for it makes [from_dict] fail, since the origin
    has no [from_dict]. *)
Theorem from_dict_generic_without_from_dict :
  forall cls c f origin args entries d,
    dict_get cls classes = Some c ->
    dict_get f (get_type_hints c) = Some (HAlias origin args) ->
    origin <> "dict" ->
    dict_get origin classes = None ->
    NoDup (keys entries) ->
    In (f, VDict d) entries ->
    forall inst, from_dict cls (VDict entries) <> Return inst.
Proof.
  intros cls c f origin args entries d Hcls Ht Horigin Hnone Hnd Hin inst H.
  destruct (from_dict_Return _ _ _ _ Hcls H) as (processed & fs & Hloop & _).
  assert (Hn : nested_message_origin (VDict d) (HAlias origin args) = Some origin).
  { unfold nested_message_origin. simpl.
    now destruct (String.eqb_spec origin "dict"). }
  destruct (process_entries_nested _ _ _ _ _ _ _ _ _ Hnd Hin Ht Hn Hloop)
    as (nested & Hrec & _).
  simpl in Hrec. rewrite Hnone in Hrec. discriminate.
Qed.

(** X13.  A field annotated with a subscripted generic whose origin is a
    message class: a dictionary supplied for it is replaced by the
    instance that [from_dict] of the origin class builds from it. *)
Theorem from_dict_builds_nested_generic :
  forall cls c f origin args entries d inst,
    dict_get cls classes = Some c ->
    dict_get f (get_type_hints c) = Some (HAlias origin args) ->
    origin <> "dict" ->
    NoDup (keys entries) ->
    In (f, VDict d) entries ->
    from_dict cls (VDict entries) = Return inst ->
    exists nested fields,
      from_dict origin (VDict d) = Return nested
      /\ inst = VMessage (__name__ c) fields
      /\ dict_get f fields = Some nested.
Proof.
  intros cls c f origin args entries d inst Hcls Ht Horigin Hnd Hin H.
  destruct (from_dict_Return _ _ _ _ Hcls H) as (processed & fs & Hloop & Hinit & ->).
  assert (Hn : nested_message_origin (VDict d) (HAlias origin args) = Some origin).
  { unfold nested_message_origin. simpl.
    now destruct (String.eqb_spec origin "dict"). }
  destruct (process_entries_nested _ _ _ _ _ _ _ _ _ Hnd Hin Ht Hn Hloop)
    as (nested & Hrec & Hget).
  exists nested, fs. repeat split; [exact Hrec|].
  eapply init_fields_get; [exact Hinit | eapply get_type_hints_field; exact Ht |].
  exact Hget.
Qed.

(** X15.  [from_dict] checks no type: a value that is not a dictionary
    is stored in the field as it is, whatever the annotation says. *)
Theorem from_dict_checks_no_type :
  forall cls c f t entries v inst,
    dict_get cls classes = Some c ->
    dict_get f (get_type_hints c) = Some t ->
    isinstance_dict v = false ->
    NoDup (keys entries) ->
    In (f, v) entries ->
    from_dict cls (VDict entries) = Return inst ->
    exists fields,
      inst = VMessage (__name__ c) fields /\ dict_get f fields = Some v.
Proof.
  intros cls c f t entries v inst Hcls Ht Hv Hnd Hin H.
  destruct (from_dict_Return _ _ _ _ Hcls H) as (processed & fs & Hloop & Hinit & ->).
  exists fs. split; [reflexivity|].
  eapply init_fields_get; [exact Hinit | eapply get_type_hints_field; exact Ht |].
  eapply process_entries_raw; eauto using nested_message_origin_not_dict.
Qed.

End FromDict.

(** X14.  What a field record holds: two calls of the field helpers
    return the same record exactly when they agree on the field number,
    on the type category and on the [optional] flag; the group, the
    wrapped type and the map types play no part. *)
Theorem field_records_equal_iff :
  forall c1 c2,
    eval_field_call c1 = eval_field_call c2 <->
    (call_number c1 = call_number c2
     /\ call_proto_type c1 = call_proto_type c2
     /\ call_optional c1 = call_optional c2).
Proof.
  assert (Hnf : forall c, eval_field_call c =
            Return {| default := if call_optional c then Default VNone else MISSING;
                      metadata := [ ("betterproto_field_number", VInt (call_number c));
                                    ("betterproto_proto_type",
                                     VStr (call_proto_type c)) ] |})
    by (intros c; destruct c; reflexivity).
  intros c1 c2. rewrite !Hnf. split.
  - intros [= Hd Hn Ht]. repeat split; auto.
    destruct (call_optional c1), (call_optional c2); (reflexivity || discriminate).
  - intros (-> & -> & ->). reflexivity.
Qed.

Lemma from_dict_ignores_unknown_keys_witness :
  from_dict Demo.classes "Point"
    (VDict [("x", VInt 1); ("colour", VDict []); ("y", VInt 2)])
  = from_dict Demo.classes "Point" (VDict [("x", VInt 1); ("y", VInt 2)]).
Proof.
  exact (from_dict_ignores_unknown_keys Demo.classes "Point" _
           [("x", VInt 1); ("colour", VDict []); ("y", VInt 2)] eq_refl).
Defined.

Lemma from_dict_missing_required_field_witness :
  exists msg,
    from_dict Demo.classes "Point" (VDict [("x", VInt 1); ("tag", VStr "t")])
    = Raise (TypeError msg).
Proof.
  refine (proj2 (from_dict_missing_required_field Demo.classes "Point" _
                   {| fname := "y"; ftype := HClass "int";
                      fspec := int32_field 2 None false |}
                   [("x", VInt 1); ("tag", VStr "t")]
                   eq_refl (or_intror (or_introl eq_refl)) eq_refl _) _).
  - simpl. intros [H|[H|[]]]; discriminate.
  - intros k v [[= _ <-]|[[= _ <-]|[]]]; reflexivity.
Defined.

Lemma from_dict_missing_optional_field_witness :
  exists fields,
    from_dict Demo.classes "Point" (VDict [("x", VInt 1); ("y", VInt 2)])
      = Return (VMessage "Point" fields)
    /\ dict_get "tag" fields = Some VNone.
Proof.
  destruct (from_dict_missing_optional_field Demo.classes "Point" _
              {| fname := "tag"; ftype := HClass "str";
                 fspec := string_field 3 None true |}
              [("x", VInt 1); ("y", VInt 2)] _
              eq_refl ltac:(nodup_strings)
              (or_intror (or_intror (or_introl eq_refl)))
              ltac:(simpl; intros [H|[H|[]]]; discriminate)
              eq_refl) as (fields & Hinst & _ & Hopt).
  exists fields. split.
  - simpl in Hinst. rewrite <- Hinst. reflexivity.
  - exact (Hopt (call_string_field 3 None true) eq_refl eq_refl).
Defined.

Lemma nested_message_is_not_rebuilt_witness :
  let m := VMessage "Segment"
             [("start", VMessage "Point" [("x", VInt 0); ("y", VInt 0);
                                          ("tag", VNone)])] in
  from_dict Demo.more_classes "Segment"
    (to_dict Demo.isoformat Demo.str_total_seconds m) <> Return m.
Proof.
  intros m.
  refine (proj2 (nested_message_is_not_rebuilt
                   Demo.isoformat Demo.str_total_seconds Demo.more_classes
                   "Segment" _ "start" "Point"
                   [("start", VMessage "Point" [("x", VInt 0); ("y", VInt 0);
                                                ("tag", VNone)])]
                   eq_refl eq_refl ltac:(nodup_strings))
            "Point" [("x", VInt 0); ("y", VInt 0); ("tag", VNone)]
            (or_introl eq_refl)).
Defined.

Lemma from_dict_generic_without_from_dict_witness :
  exists e,
    from_dict Demo.more_classes "Segment"
      (VDict [("start", VNone); ("tags", VDict [("a", VStr "b")])])
    = Raise e.
Proof.
  destruct (from_dict Demo.more_classes "Segment"
              (VDict [("start", VNone); ("tags", VDict [("a", VStr "b")])]))
    as [inst|e] eqn:E; [exfalso | now exists e].
  refine (from_dict_generic_without_from_dict Demo.more_classes "Segment" _
            "tags" "list" [HClass "str"]
            [("start", VNone); ("tags", VDict [("a", VStr "b")])]
            [("a", VStr "b")]
            eq_refl eq_refl _ eq_refl ltac:(nodup_strings)
            (or_intror (or_introl eq_refl)) inst E).
  discriminate.
Defined.

Lemma from_dict_builds_nested_generic_witness :
  exists fields,
    from_dict Demo.more_classes "Segment"
      (VDict [("start", VNone); ("box", VDict [("item", VInt 5)])])
      = Return (VMessage "Segment" fields)
    /\ dict_get "box" fields = Some (VMessage "Box" [("item", VInt 5)]).
Proof.
  destruct (from_dict_builds_nested_generic Demo.more_classes "Segment" _
              "box" "Box" [HClass "int"]
              [("start", VNone); ("box", VDict [("item", VInt 5)])]
              [("item", VInt 5)] _
              eq_refl eq_refl ltac:(discriminate) ltac:(nodup_strings)
              (or_intror (or_introl eq_refl)) eq_refl)
    as (nested & fields & Hnested & Hinst & Hget).
  exists fields. split.
  - simpl in Hinst. rewrite <- Hinst. reflexivity.
  - rewrite Hget. f_equal. simpl in Hnested. now injection Hnested as <-.
Defined.

Lemma from_dict_checks_no_type_witness :
  exists fields,
    from_dict Demo.classes "Point" (VDict [("x", VStr "one"); ("y", VInt 2)])
      = Return (VMessage "Point" fields)
    /\ dict_get "x" fields = Some (VStr "one").
Proof.
  destruct (from_dict_checks_no_type Demo.classes "Point" _ "x" _
              [("x", VStr "one"); ("y", VInt 2)] (VStr "one") _
              eq_refl eq_refl eq_refl ltac:(nodup_strings)
              (or_introl eq_refl) eq_refl) as (fields & Hinst & Hget).
  exists fields. split; [|exact Hget].
  simpl in Hinst. rewrite <- Hinst. reflexivity.
Defined.

End StandardMessageExtra.

(** * Further properties of plugin/standard_plugin.py *)

Module StandardPluginExtra.
Import StandardPlugin StandardPluginFacts.

Lemma fs_write_other fs path text other :
  other <> path -> dict_get other (fs_write fs path text) = dict_get other fs.
Proof.
  intros Hne. unfold fs_write.
  destruct (dict_get path fs); now apply dict_get_set_other.
Qed.

Section PluginExtra.

Variables parsed compiled template : Type.
Variable parse_proto : string -> outcome parsed.
Variable compile_parsed : parsed -> bool -> outcome compiled.
Variable get_template : string -> outcome template.
Variable render : template -> option compiled -> outcome string.
Variable writable : string -> bool.

#[local] Abbreviation main_body :=
  (main_body parse_proto compile_parsed get_template render).
#[local] Abbreviation main_loop :=
  (main_loop parse_proto compile_parsed get_template render).
#[local] Abbreviation main_response :=
  (main_response parse_proto compile_parsed get_template render).
#[local] Abbreviation generate_code :=
  (generate_code parse_proto compile_parsed get_template render writable).
#[local] Abbreviation stages :=
  (stages parse_proto compile_parsed get_template render).
#[local] Abbreviation header_stage :=
  (header_stage parse_proto compile_parsed get_template render).
#[local] Abbreviation renders :=
  (renders parse_proto compile_parsed get_template render).
#[local] Abbreviation appended :=
  (appended parse_proto compile_parsed get_template render).

Lemma named_has_name f n : named f n -> has_name f = true.
Proof.
  intros [Hget Hne]. unfold has_name. rewrite Hget. simpl.
  now destruct (String.eqb_spec n "").
Qed.

Lemma skipped_has_no_name f : main_body f = Return None -> has_name f = false.
Proof.
  intros H. apply main_body_None in H. destruct H as (v & Hget & Hv).
  unfold has_name. now rewrite Hget.
Qed.

Lemma main_loop_has_name files : forall acc outs,
  main_loop files acc = Return outs ->
  exists new, outs = (acc ++ new)%list
              /\ Forall2 appended (filter has_name files) new.
Proof.
  induction files as [|f files IH]; simpl; intros acc outs H.
  - injection H as <-. exists []. rewrite app_nil_r. auto.
  - bind_inv H. destruct a as [entry|].
    + apply IH in H. destruct H as (new & -> & Hall).
      pose proof (proj1 (main_body_Some _ _ _ _ _ _ _ _ _) Ha) as Happ.
      assert (Hname : has_name f = true)
        by (destruct Happ as (n & _ & _ & Hn & _); exact (named_has_name _ _ Hn)).
      rewrite Hname. exists (entry :: new). rewrite <- app_assoc.
      split; [reflexivity | constructor; assumption].
    + rewrite (skipped_has_no_name _ Ha). now apply IH.
Qed.

Lemma main_loop_first_failure pre : forall f post acc e,
  (forall g, In g pre -> exists r, main_body g = Return r) ->
  main_body f = Raise e ->
  main_loop (pre ++ f :: post) acc = Raise e.
Proof.
  induction pre as [|g pre IH]; simpl; intros f post acc e Hpre Hf.
  - now rewrite Hf.
  - destruct (Hpre g (or_introl eq_refl)) as [r ->]. simpl.
    destruct r; apply IH; auto.
Qed.

Lemma no_name_skipped f :
  isinstance_dict f = true -> has_name f = false -> main_body f = Return None.
Proof.
  destruct f; try discriminate. intros _.
  unfold has_name, StandardPlugin.main_body. simpl.
  destruct (dict_get "name" entries) as [v|]; simpl.
  - now intros ->.
  - reflexivity.
Qed.

Lemma main_loop_all_skipped files : forall acc,
  (forall f, In f files -> isinstance_dict f = true /\ has_name f = false) ->
  main_loop files acc = Return acc.
Proof.
  induction files as [|f files IH]; simpl; intros acc Hall; [reflexivity|].
  destruct (Hall f (or_introl eq_refl)) as [Hdict Hname].
  rewrite (no_name_skipped f Hdict Hname). simpl. apply IH. auto.
Qed.

Lemma generate_code_Return proto_file output_file inc fs fs' :
  generate_code proto_file output_file inc fs = (fs', Return tt) ->
  exists source header code,
    dict_get proto_file fs = Some source
    /\ stages source inc header code
    /\ writable output_file = true
    /\ dict_get output_file fs' = Some (header ++ newline ++ newline ++ code).
Proof.
  unfold StandardPlugin.generate_code.
  destruct (dict_get proto_file fs) as [source|]; [|discriminate].
  destruct (parse_proto source) as [p|] eqn:H1; simpl; [|discriminate].
  destruct (compile_parsed p inc) as [c|] eqn:H2; simpl; [|discriminate].
  destruct (get_template "standard_header.py.j2") as [ht|] eqn:H3; simpl;
    [|discriminate].
  destruct (get_template "standard_template.py.j2") as [ct|] eqn:H4; simpl;
    [|discriminate].
  destruct (writable output_file) eqn:Hw; [|discriminate].
  destruct (render ht (Some c)) as [header|] eqn:H5; [|discriminate].
  destruct (render ct (Some c)) as [code|] eqn:H6; [|discriminate].
  intros [= <-]. exists source, header, code. split; [reflexivity|]. split.
  - exists p, c, ht, ct. auto 10.
  - split; [reflexivity|].
    rewrite !fs_write_after_set, dict_get_set_same. simpl.
    now rewrite string_app_assoc.
Qed.

Lemma generate_code_stages proto_file output_file inc fs source header code :
  dict_get proto_file fs = Some source ->
  stages source inc header code ->
  writable output_file = true ->
  exists fs',
    generate_code proto_file output_file inc fs = (fs', Return tt)
    /\ dict_get output_file fs' = Some (header ++ newline ++ newline ++ code).
Proof.
  intros Hsrc (p & c & ht & ct & H1 & H2 & H3 & H4 & H5 & H6) Hw.
  unfold StandardPlugin.generate_code.
  rewrite Hsrc, H1. simpl. rewrite H2. simpl. rewrite H3. simpl.
  rewrite H4. simpl. rewrite Hw, H5, H6.
  eexists. split; [reflexivity|].
  rewrite !fs_write_after_set, dict_get_set_same. simpl.
  now rewrite string_app_assoc.
Qed.

Lemma stages_functional source inc h1 c1 h2 c2 :
  stages source inc h1 c1 -> stages source inc h2 c2 -> h1 = h2 /\ c1 = c2.
Proof.
  intros (p & c & ht & ct & H1 & H2 & H3 & H4 & H5 & H6)
         (p' & c' & ht' & ct' & H1' & H2' & H3' & H4' & H5' & H6').
  rewrite H1 in H1'. injection H1' as <-.
  rewrite H2 in H2'. injection H2' as <-.
  rewrite H3 in H3'. injection H3' as <-.
  rewrite H4 in H4'. injection H4' as <-.
  rewrite H5 in H5'. rewrite H6 in H6'. split; congruence.
Qed.

(** X16.  The loop of [main] skips the files without a (truthy) name and
    nothing else: the entries of a response are, one for one and in
    order, those of the files of the request that have a name. *)
Theorem main_skips_only_unnamed_files :
  forall request files response,
    py_get request "file" (VList []) = Return (VList files) ->
    main_response request = Return response ->
    exists outs,
      response = VDict [("file", VList outs)]
      /\ Forall2 appended (filter has_name files) outs
      /\ List.length outs = List.length (filter has_name files).
Proof.
  intros request files response Hfile H.
  apply main_response_inv in H.
  destruct H as (file & files' & outs & Hget & Hiter & Hloop & ->).
  rewrite Hfile in Hget. injection Hget as <-. simpl in Hiter.
  injection Hiter as <-.
  destruct (main_loop_has_name _ _ _ Hloop) as (new & -> & Hall).
  exists new. simpl. repeat split; [exact Hall|].
  symmetry. exact (Forall2_length Hall).
Qed.

(** X17.  Requests at the edges: without a ["file"] key, or with files
    that are all dictionaries without a name, the response is the empty
    list of files; a request that is not a dictionary is an
    [AttributeError]; a ["file"] that cannot be iterated makes [main]
    raise what the iteration raises. *)
Theorem main_response_edge_requests :
  (forall entries,
      dict_get "file" entries = None ->
      main_response (VDict entries) = Return (VDict [("file", VList [])]))
  /\ (forall entries files,
        dict_get "file" entries = Some (VList files) ->
        (forall f, In f files -> isinstance_dict f = true /\ has_name f = false) ->
        main_response (VDict entries) = Return (VDict [("file", VList [])]))
  /\ (forall request,
        isinstance_dict request = false ->
        exists msg, main_response request = Raise (AttributeError msg))
  /\ (forall entries file e,
        dict_get "file" entries = Some file ->
        py_iter file = Raise e ->
        main_response (VDict entries) = Raise e).
Proof.
  unfold StandardPlugin.main_response. repeat split.
  - intros entries H. simpl. now rewrite H.
  - intros entries files H Hall. simpl. rewrite H. simpl.
    now rewrite (main_loop_all_skipped files []).
  - intros request H. destruct request; try discriminate; simpl; eauto.
  - intros entries file e H Hiter. simpl. rewrite H. simpl. now rewrite Hiter.
Qed.

(** X18.  No partial response: when the loop body raises on a file and
    returns on the files before it, [main] raises that exception; the
    entries built so far are lost. *)
Theorem main_first_failure_propagates :
  forall request pre f post e,
    py_get request "file" (VList []) = Return (VList (pre ++ f :: post)%list) ->
    (forall g, In g pre -> exists r, main_body g = Return r) ->
    main_body f = Raise e ->
    main_response request = Raise e.
Proof.
  intros request pre f post e Hfile Hpre Hf.
  unfold StandardPlugin.main_response. rewrite Hfile. simpl.
  now rewrite (main_loop_first_failure pre f post [] e Hpre Hf).
Qed.

(** X19.  [generate_code] touches no file but the output file, whether
    it succeeds or fails. *)
Theorem generate_code_touches_only_output :
  forall proto_file output_file include_imports fs path,
    path <> output_file ->
    dict_get path (fst (generate_code proto_file output_file include_imports fs))
    = dict_get path fs.
Proof.
  intros proto_file output_file inc fs path Hne.
  unfold StandardPlugin.generate_code.
  destruct (dict_get proto_file fs) as [source|]; [|reflexivity].
  destruct (parse_proto source) as [p|]; simpl; [|reflexivity].
  destruct (compile_parsed p inc) as [c|]; simpl; [|reflexivity].
  destruct (get_template "standard_header.py.j2") as [ht|]; simpl; [|reflexivity].
  destruct (get_template "standard_template.py.j2") as [ct|]; simpl; [|reflexivity].
  destruct (writable output_file); [|reflexivity].
  destruct (render ht (Some c)) as [header|]; simpl;
    [|now apply dict_get_set_other].
  destruct (render ct (Some c)) as [code|]; simpl;
    rewrite ?fs_write_other by exact Hne; now apply dict_get_set_other.
Qed.

(** X20.  What a failed [generate_code] leaves behind.  A missing input
    file is an [OSError] and changes nothing; so is an output file that
    cannot be opened for writing, when the collaborators got that far.
    In general a failure leaves the file system as it was (nothing was
    opened for writing), or the output file truncated to nothing (the
    header template did not render), or the output file holding the
    header rendered from the input file and the separator, and nothing
    after them (the code template did not render). *)
Theorem generate_code_failure_states :
  forall proto_file output_file include_imports fs,
    (dict_get proto_file fs = None ->
     exists msg,
       generate_code proto_file output_file include_imports fs
       = (fs, Raise (OSError msg)))
    /\ (forall source header code,
          dict_get proto_file fs = Some source ->
          stages source include_imports header code ->
          writable output_file = false ->
          exists msg,
            generate_code proto_file output_file include_imports fs
            = (fs, Raise (OSError msg)))
    /\ (forall fs' e,
          generate_code proto_file output_file include_imports fs
            = (fs', Raise e) ->
          fs' = fs
          \/ (writable output_file = true
              /\ fs' = dict_set fs output_file "")
          \/ (writable output_file = true
              /\ exists source header,
                   dict_get proto_file fs = Some source
                   /\ header_stage source include_imports header
                   /\ fs' = dict_set fs output_file
                                      (header ++ newline ++ newline))).
Proof.
  intros proto_file output_file inc fs.
  unfold StandardPlugin.generate_code. split; [|split].
  - intros ->. eauto.
  - intros source header code Hsrc (p & c & ht & ct & H1 & H2 & H3 & H4 & _) Hw.
    rewrite Hsrc, H1. simpl. rewrite H2. simpl. rewrite H3. simpl.
    rewrite H4. simpl. rewrite Hw. eauto.
  - intros fs' e.
    destruct (dict_get proto_file fs) as [source|]; [|intros [= <- _]; now left].
    destruct (parse_proto source) as [p|] eqn:H1; simpl;
      [|intros [= <- _]; now left].
    destruct (compile_parsed p inc) as [c|] eqn:H2; simpl;
      [|intros [= <- _]; now left].
    destruct (get_template "standard_header.py.j2") as [ht|] eqn:H3; simpl;
      [|intros [= <- _]; now left].
    destruct (get_template "standard_template.py.j2") as [ct|] eqn:H4; simpl;
      [|intros [= <- _]; now left].
    destruct (writable output_file); [|intros [= <- _]; now left].
    destruct (render ht (Some c)) as [header|] eqn:H5.
    + destruct (render ct (Some c)) as [code|]; [discriminate|].
      intros [= <- _]. right. right. split; [reflexivity|].
      exists source, header. split; [reflexivity|]. split.
      * exists p, c, ht, ct. auto 10.
      * now rewrite !fs_write_after_set.
    + intros [= <- _]. right. left. split; reflexivity.
Qed.

(** X21.  [main] and [generate_code] produce the same text: for a named
    file of a request whose ["content"] is the content of [proto_file],
    and an output file that can be opened for writing, [main] appends an
    entry with content [content] exactly when [generate_code] (with
    [include_imports] false) succeeds and leaves [content] in the output
    file. *)
Theorem main_agrees_with_generate_code :
  forall f n source proto_file output_file fs content,
    named f n ->
    py_get f "content" (VStr "") = Return (VStr source) ->
    dict_get proto_file fs = Some source ->
    writable output_file = true ->
    (main_body f = Return (Some (response_entry (replace n ".proto" "_pb.py")
                                                content))
     <-> exists fs',
           generate_code proto_file output_file false fs = (fs', Return tt)
           /\ dict_get output_file fs' = Some content).
Proof.
  intros f n source proto_file output_file fs content Hn Hcontent Hsrc Hw. split.
  - intros H. apply main_body_Some in H.
    destruct H as (n' & header & code & _ & (source' & Hc' & Hst) & Hentry).
    rewrite Hcontent in Hc'. injection Hc' as <-.
    unfold response_entry in Hentry. injection Hentry as _ ->.
    exact (generate_code_stages _ output_file _ _ _ _ _ Hsrc Hst Hw).
  - intros (fs' & Hgen & Hout).
    apply generate_code_Return in Hgen.
    destruct Hgen as (source' & header & code & Hsrc' & Hst & _ & Hout').
    rewrite Hsrc in Hsrc'. injection Hsrc' as <-.
    rewrite Hout in Hout'. injection Hout' as ->.
    apply main_body_Some. exists n, header, code.
    split; [exact Hn|]. split; [|reflexivity]. exists source. auto.
Qed.

(** X22.  A file whose name does not contain [".proto"] gets an output
    entry under the very name of the input. *)
Theorem output_name_without_extension :
  forall f n out,
    named f n ->
    occurs ".proto" n = false ->
    main_body f = Return (Some out) ->
    py_get out "name" VNone = Return (VStr n).
Proof.
  intros f n out [Hget Hne] Hocc H. apply main_body_Some in H.
  destruct H as (n' & header & code & [Hget' _] & _ & ->).
  rewrite Hget in Hget'. injection Hget' as <-.
  unfold replace. simpl String.append. cbn [py_get response_entry dict_get].
  simpl. now rewrite (replace_from_no_occurrence ".proto" "_pb.py" n Hocc).
Qed.

End PluginExtra.

Lemma main_skips_only_unnamed_files_witness :
  exists outs,
    main_response Demo.parse_proto Demo.compile_parsed Demo.get_template
      Demo.render
      (VDict [("file", VList [ VDict [("name", VStr "")];
                               VDict [("name", VStr "a.proto")];
                               VDict [("content", VStr "B")] ])])
    = Return (VDict [("file", VList outs)])
    /\ List.length outs = 1.
Proof.
  destruct (main_skips_only_unnamed_files _ _ _
              Demo.parse_proto Demo.compile_parsed Demo.get_template Demo.render
              (VDict [("file", VList [ VDict [("name", VStr "")];
                                       VDict [("name", VStr "a.proto")];
                                       VDict [("content", VStr "B")] ])])
              _ _ eq_refl eq_refl) as (outs & Hresp & _ & Hlen).
  exists outs. split; [|exact Hlen].
  rewrite <- Hresp. reflexivity.
Defined.

Lemma main_first_failure_propagates_witness :
  exists e,
    main_response Demo.parse_proto Demo.compile_parsed Demo.get_template
      Demo.render_code_fails
      (VDict [("file", VList [ VDict [("name", VStr "")];
                               VDict [("name", VStr "a.proto")];
                               VDict [("name", VStr "b.proto")] ])])
    = Raise e.
Proof.
  eexists.
  refine (main_first_failure_propagates _ _ _
            Demo.parse_proto Demo.compile_parsed Demo.get_template
            Demo.render_code_fails
            (VDict [("file", VList [ VDict [("name", VStr "")];
                                     VDict [("name", VStr "a.proto")];
                                     VDict [("name", VStr "b.proto")] ])])
            [VDict [("name", VStr "")]] (VDict [("name", VStr "a.proto")])
            [VDict [("name", VStr "b.proto")]] _ eq_refl _ eq_refl).
  intros g [<-|[]]. eexists. reflexivity.
Defined.

Lemma generate_code_touches_only_output_witness :
  dict_get "b.proto"
    (fst (generate_code Demo.parse_proto Demo.compile_parsed Demo.get_template
            Demo.render Demo.writable "a.proto" "a_pb.py" false
            [("a.proto", "A"); ("b.proto", "B")]))
  = Some "B".
Proof.
  refine (generate_code_touches_only_output _ _ _
            Demo.parse_proto Demo.compile_parsed Demo.get_template Demo.render
            Demo.writable "a.proto" "a_pb.py" false [("a.proto", "A"); ("b.proto", "B")]
            "b.proto" _).
  discriminate.
Defined.

Lemma generate_code_failure_states_witness :
  exists msg,
    generate_code Demo.parse_proto Demo.compile_parsed Demo.get_template
      Demo.render Demo.writable "a.proto" "out/a_pb.py" false
      [("a.proto", "A")]
    = ([("a.proto", "A")], Raise (OSError msg)).
Proof.
  refine (proj1 (proj2 (generate_code_failure_states _ _ _
                  Demo.parse_proto Demo.compile_parsed Demo.get_template
                  Demo.render Demo.writable "a.proto" "out/a_pb.py" false
                  [("a.proto", "A")]))
            "A" _ _ eq_refl _ eq_refl).
  do 4 eexists. repeat split; reflexivity.
Defined.

Lemma main_agrees_with_generate_code_witness :
  exists fs',
    generate_code Demo.parse_proto Demo.compile_parsed Demo.get_template
      Demo.render Demo.writable "a.proto" "a_pb.py" false [("a.proto", "A")]
      = (fs', Return tt)
    /\ dict_get "a_pb.py" fs'
         = Some ("standard_header.py.j2:A" ++ newline ++ newline
                   ++ "standard_template.py.j2:A").
Proof.
  refine (proj1 (main_agrees_with_generate_code _ _ _
                   Demo.parse_proto Demo.compile_parsed Demo.get_template
                   Demo.render Demo.writable
                   (VDict [("name", VStr "a.proto"); ("content", VStr "A")])
                   "a.proto" "A" "a.proto" "a_pb.py"
                   [("a.proto", "A")] _ _ eq_refl eq_refl eq_refl) eq_refl).
  split; [reflexivity | discriminate].
Defined.

Lemma output_name_without_extension_witness :
  py_get (response_entry "notes.txt"
            ("standard_header.py.j2:N" ++ newline ++ newline
               ++ "standard_template.py.j2:N"))
         "name" VNone
  = Return (VStr "notes.txt").
Proof.
  refine (output_name_without_extension _ _ _
            Demo.parse_proto Demo.compile_parsed Demo.get_template Demo.render
            (VDict [("name", VStr "notes.txt"); ("content", VStr "N")])
            "notes.txt" _ _ eq_refl eq_refl).
  split; [reflexivity | discriminate].
Defined.

Lemma output_name_single_extension_witness :
  replace ("dir/b" ++ ".proto") ".proto" "_pb.py" = "dir/b" ++ "_pb.py".
Proof. exact (output_name_single_extension "dir/b" eq_refl). Defined.

End StandardPluginExtra.
